(** * ScrapingService: a shallow embedding of the scraping engine

    Source: [src/services/ScrapingService.ts] (branch improve-scraping).

    JavaScript strings are modelled as [string], each [ascii] standing for
    one UTF-16 code unit below 256 (the Latin-1 range).  On that range
    [String.prototype.toLowerCase] is length preserving and acts unit by
    unit, and the regular-expression class [\s] is the seven units listed
    in [isWhiteSpace]. *)

From Stdlib Require Import String Ascii List ZArith Lia Bool Arith.
From Stdlib Require Import Decimal DecimalString DecimalPos.
Import ListNotations.

Local Open Scope string_scope.

(* ------------------------------------------------------------------ *)
(** ** JavaScript string primitives used by the service *)

Module Js.

Definition code (c : ascii) : nat := nat_of_ascii c.

Definition between (lo hi n : nat) : bool :=
  Nat.leb lo n && Nat.leb n hi.

(** [a-z] *)
Definition isLowerAZ (c : ascii) : bool := between 97 122 (code c).

(** [0-9] *)
Definition isDigit (c : ascii) : bool := between 48 57 (code c).

Definition hyphen : ascii := "-"%char.

Definition isHyphen (c : ascii) : bool := Ascii.eqb c hyphen.

(** The class [\s] (and the set stripped by [trim]) below U+0100:
    TAB, LF, VT, FF, CR, SPACE and NO-BREAK SPACE. *)
Definition isWhiteSpace (c : ascii) : bool :=
  let n := code c in
  between 9 13 n || Nat.eqb n 32 || Nat.eqb n 160.

(** Lower-casing of one code unit: A-Z and the Latin-1 capitals
    U+00C0..U+00DE (U+00D7, the multiplication sign, has no case). *)
Definition lowerUnit (c : ascii) : ascii :=
  let n := code c in
  if between 65 90 n then ascii_of_nat (n + 32)
  else if between 192 222 n && negb (Nat.eqb n 215) then ascii_of_nat (n + 32)
  else c.

Fixpoint toLowerCase (s : string) : string :=
  match s with
  | EmptyString => EmptyString
  | String c s' => String (lowerUnit c) (toLowerCase s')
  end.

(** [s.replace(/[^...]/g, '')] for a negated class: keep the units that
    are in the class. *)
Fixpoint keepOnly (keep : ascii -> bool) (s : string) : string :=
  match s with
  | EmptyString => EmptyString
  | String c s' =>
      if keep c then String c (keepOnly keep s') else keepOnly keep s'
  end.

(** [s.replace(/X+/g, r)] for a one-unit class [X]: every maximal run of
    units of the class becomes the single unit [r].  [inRun] tells that
    the previous unit belonged to the run being replaced. *)
Fixpoint collapseFrom (inRun : bool) (cls : ascii -> bool) (r : ascii)
         (s : string) : string :=
  match s with
  | EmptyString => EmptyString
  | String c s' =>
      if cls c then
        if inRun then collapseFrom true cls r s'
        else String r (collapseFrom true cls r s')
      else String c (collapseFrom false cls r s')
  end.

Definition replaceRuns (cls : ascii -> bool) (r : ascii) (s : string)
  : string := collapseFrom false cls r s.

Fixpoint trimStart (s : string) : string :=
  match s with
  | EmptyString => EmptyString
  | String c s' => if isWhiteSpace c then trimStart s' else s
  end.

(** Drops the trailing white space; the result of the recursive call is
    empty exactly when everything to the right was white space. *)
Fixpoint trimEnd (s : string) : string :=
  match s with
  | EmptyString => EmptyString
  | String c s' =>
      match trimEnd s' with
      | EmptyString => if isWhiteSpace c then EmptyString
                       else String c EmptyString
      | t => String c t
      end
  end.

Definition trim (s : string) : string := trimEnd (trimStart s).

(** [s.includes(sub)] *)
Fixpoint includes (s sub : string) : bool :=
  prefix sub s ||
  match s with
  | EmptyString => false
  | String _ s' => includes s' sub
  end.

(** Truthiness of a string: only the empty string is falsy. *)
Definition truthy (s : string) : bool :=
  match s with EmptyString => false | _ => true end.

(** [a || b] on strings. *)
Definition orElse (a b : string) : string := if truthy a then a else b.

(** Template-literal rendering of an integral number. *)
Definition numberToString (n : Z) : string :=
  NilZero.string_of_int (Z.to_int n).

End Js.

(* ------------------------------------------------------------------ *)
(** ** Pure text transforms of the service *)

(** [generateSlug]:
    title.toLowerCase()
         .replace(/[^a-z0-9\s-]/g, '')
         .replace(/\s+/g, '-')
         .replace(/-+/g, '-')
         .trim() *)
Definition slugClass (c : ascii) : bool :=
  Js.isLowerAZ c || Js.isDigit c || Js.isWhiteSpace c || Js.isHyphen c.

Definition generateSlug (title : string) : string :=
  Js.trim
    (Js.replaceRuns Js.isHyphen Js.hyphen
       (Js.replaceRuns Js.isWhiteSpace Js.hyphen
          (Js.keepOnly slugClass (Js.toLowerCase title)))).

(** [parseStatus] *)
Definition parseStatus (statusText : string) : string :=
  let status := Js.toLowerCase statusText in
  if Js.includes status "ongoing" || Js.includes status "berlangsung" then
    "ongoing"
  else if Js.includes status "completed" || Js.includes status "selesai" then
    "completed"
  else if Js.includes status "upcoming" || Js.includes status "akan datang" then
    "upcoming"
  else "ongoing".

(* ------------------------------------------------------------------ *)
(** ** Data model *)

Record DownloadLink := {
  dl_quality : string;
  dl_url : string;
  dl_size : option string;
  dl_format : string
}.

Record ScrapedEpisodeData := {
  ep_title : string;
  ep_episodeNumber : Z;
  ep_imageUrl : option string;
  ep_description : option string;
  ep_airDate : option Z;
  ep_duration : option Z;
  ep_downloadLinks : list DownloadLink
}.

Record Metadata := {
  originalUrl : string;
  scrapedAt : Z;
  source : string
}.

Record ScrapedAnimeData := {
  title : string;
  slug : string;
  imageUrl : string;
  status : string;
  description : option string;
  genres : list string;
  episodes : list ScrapedEpisodeData;
  metadata : Metadata
}.

Record ScrapingConfig := {
  usePuppeteer : bool;
  timeout : Z;
  retries : nat;
  delay : Z;
  userAgent : string;
  proxy : option string
}.

(** The defaults of the constructor. *)
Definition defaultConfig : ScrapingConfig := {|
  usePuppeteer := false;
  timeout := 30000;
  retries := 3;
  delay := 1000;
  userAgent := "Mozilla/5.0 (Windows NT 10.0; Win64; x64) AppleWebKit/537.36 (KHTML, like Gecko) Chrome/120.0.0.0 Safari/537.36";
  proxy := None
|}.

(* ------------------------------------------------------------------ *)
(** ** Exceptions, observable events and the environment *)

Inductive JsError :=
| Error (message : string)
| AxiosError (responseStatus : option Z).

Inductive Result (A : Type) :=
| Ok (a : A)
| Throw (e : JsError).

Arguments Ok {A} a.
Arguments Throw {A} e.

Inductive Level := LInfo | LError.

Inductive Event :=
| Log (lvl : Level) (msg : string) (err : option JsError)
| ConsoleError (msg : string) (err : JsError)
| Sleep (ms : Z)
| RetryWait (ms : Z)
| HttpGet (url : string)
| Launch
| NewPage (id : nat)
| ClosePage (id : nat).

(** One [#episodes .episode] element as the static path sees it through
    cheerio: the text of [.episode-details h3 a], the [src] attribute of
    [.episode-image img] ([None] when absent), the text of [.mirror-sub]
    and of [.episode-meta] (the text of an empty selection is the empty
    string).  [Throw] stands for a DOM access that raises. *)
Record CheerioElement := {
  ce_title : Result string;
  ce_imageSrc : Result (option string);
  ce_status : Result string;
  ce_time : Result string
}.

Inductive HttpOutcome :=
| HttpOk (episodeElements : list CheerioElement)
| HttpFail (responseStatus : option Z).

(** The same element inside the rendered document: for each of the four
    [querySelector] calls whether an element was found and, when found,
    its [src] attribute or [textContent] (both nullable). *)
Record DomEpisode := {
  de_image : option (option string);
  de_title : option (option string);
  de_status : option (option string);
  de_time : option (option string)
}.

(** The items that [page.evaluate] hands back to the service. *)
Record RawItem := {
  ri_title : string;
  ri_imageUrl : string;
  ri_status : string;
  ri_time : string
}.

(** What the headless renderer does during one use of a tab: each call
    either goes through ([None]) or rejects. *)
Record Rendering := {
  r_newPage : option JsError;
  r_setViewport : option JsError;
  r_setUserAgent : option JsError;
  r_goto : option JsError;
  r_waitForSelector : option JsError;
  r_evaluate : Result (list (Result DomEpisode))
}.

(** The environment of a run.  Every interaction with it consumes one
    tick, so that an outcome may differ from one attempt to the next. *)
Record World := {
  w_http : nat -> string -> HttpOutcome;
  w_render : nat -> string -> Rendering;
  w_launch : nat -> option JsError;
  w_clock : nat -> Z;
  w_backoff : nat -> Z
}.

(** The mutable part of the service and what it has done so far:
    [this.browser], the tabs that are open, the tick counter and the
    events in the order they happened. *)
Record State := {
  st_browser : option nat;
  st_pages : list nat;
  st_tick : nat;
  st_trace : list Event
}.

Definition initialState : State := {|
  st_browser := None;
  st_pages := [];
  st_tick := 0;
  st_trace := []
|}.

(* ------------------------------------------------------------------ *)
(** ** The monad of the service: state and exceptions *)

Definition M (A : Type) : Type := State -> Result A * State.

Definition ret {A} (a : A) : M A := fun s => (Ok a, s).

Definition bind {A B} (c : M A) (k : A -> M B) : M B :=
  fun s =>
    match c s with
    | (Ok a, s1) => k a s1
    | (Throw e, s1) => (Throw e, s1)
    end.

Definition throw {A} (e : JsError) : M A := fun s => (Throw e, s).

(** [try { c } catch (e) { h e }] *)
Definition tryCatch {A} (c : M A) (h : JsError -> M A) : M A :=
  fun s =>
    match c s with
    | (Ok a, s1) => (Ok a, s1)
    | (Throw e, s1) => h e s1
    end.

(** [try { c } finally { f }] *)
Definition tryFinally {A} (c : M A) (f : M unit) : M A :=
  fun s =>
    match c s with
    | (r, s1) =>
        match f s1 with
        | (Ok _, s2) => (r, s2)
        | (Throw e, s2) => (Throw e, s2)
        end
    end.

Declare Scope js_scope.
Delimit Scope js_scope with js.

Notation "x <- c ;; k" := (bind c (fun x => k))
  (at level 61, c at next level, right associativity) : js_scope.
Notation "c ;; k" := (bind c (fun _ => k))
  (at level 61, right associativity) : js_scope.

Local Open Scope js_scope.

Definition liftResult {A} (r : Result A) : M A := fun s => (r, s).

(** The state after one more event. *)
Definition withEvent (s : State) (e : Event) : State :=
  {| st_browser := st_browser s; st_pages := st_pages s;
     st_tick := st_tick s; st_trace := (st_trace s ++ [e])%list |}.

Definition emit (e : Event) : M unit := fun s => (Ok tt, withEvent s e).

(** Reads the tick counter and advances it. *)
Definition tick : M nat :=
  fun s =>
    (Ok (st_tick s), {| st_browser := st_browser s; st_pages := st_pages s;
                        st_tick := S (st_tick s);
                        st_trace := st_trace s |}).

Definition getBrowser : M (option nat) := fun s => (Ok (st_browser s), s).

Definition setBrowser (b : option nat) : M unit :=
  fun s =>
    (Ok tt, {| st_browser := b; st_pages := st_pages s;
               st_tick := st_tick s; st_trace := st_trace s |}).

Definition setPages (f : list nat -> list nat) : M unit :=
  fun s =>
    (Ok tt, {| st_browser := st_browser s; st_pages := f (st_pages s);
               st_tick := st_tick s; st_trace := st_trace s |}).

(** Removes the first occurrence of a tab. *)
Fixpoint removeTab (id : nat) (tabs : list nat) : list nat :=
  match tabs with
  | [] => []
  | t :: rest => if Nat.eqb t id then rest else t :: removeTab id rest
  end.

Definition loggerInfo (msg : string) : M unit := emit (Log LInfo msg None).

Definition loggerError (msg : string) (e : JsError) : M unit :=
  emit (Log LError msg (Some e)).

(** A step of the renderer that either goes through or rejects. *)
Definition step (outcome : option JsError) : M unit :=
  match outcome with
  | None => ret tt
  | Some e => throw e
  end.

(* ------------------------------------------------------------------ *)
(** ** The service *)

Section Service.

Variable w : World.
Variable config : ScrapingConfig.

(** [delay(ms)] *)
Definition delayMs (ms : Z) : M unit := emit (Sleep ms).

(** [new Date()] *)
Definition newDate : M Z :=
  t <- tick ;; ret (w_clock w t).

(** Modelled from the spec: [RetryService.execute], whose file
    (src/services/RetryService.ts) is not among the sources.  Section 4.3:
    it invokes the operation; on failure it waits a delay of its schedule
    and retries, until success or until [maxRetries] retries are used up,
    and then fails with the last underlying error; the operation runs at
    most [1 + maxRetries] times.  The schedule is [w_backoff]. *)
Fixpoint retryFrom {A} (attempt retriesLeft : nat) (operation : M A) : M A :=
  tryCatch operation
    (fun e =>
       match retriesLeft with
       | O => throw e
       | S n =>
           emit (RetryWait (w_backoff w attempt)) ;;
           retryFrom (S attempt) n operation
       end).

Definition retryExecute {A} (maxRetries : nat) (operation : M A) : M A :=
  retryFrom 0 maxRetries operation.

(** [error.response?.status === code] *)
Definition statusIs (st : option Z) (code : Z) : bool :=
  match st with
  | Some n => Z.eqb n code
  | None => false
  end.

(** [this.axiosInstance.get(url)] with the response interceptor of
    [setupInterceptors]: a rejected request with status 429 waits 5000 ms
    before the error is thrown again; any other error is passed on.  The
    value is the list of [#episodes .episode] elements of the parsed body.
    The request interceptor only copies [config.proxy] into the request
    and has no part in what follows. *)
Definition axiosGet (url : string) : M (list CheerioElement) :=
  t <- tick ;;
  emit (HttpGet url) ;;
  match w_http w t url with
  | HttpOk els => ret els
  | HttpFail st =>
      if statusIs st 429 then delayMs 5000 ;; throw (AxiosError st)
      else throw (AxiosError st)
  end.

(** [initializeBrowser] *)
Definition initializeBrowser : M unit :=
  b <- getBrowser ;;
  match usePuppeteer config, b with
  | true, None =>
      t <- tick ;;
      match w_launch w t with
      | Some e => throw e
      | None => emit Launch ;; setBrowser (Some t)
      end
  | _, _ => ret tt
  end.

(** [cleanup]; [closing] is what [this.browser.close()] does when it is
    called: it goes through ([None]) or rejects. *)
Definition cleanup (closing : option JsError) : M unit :=
  b <- getBrowser ;;
  match b with
  | Some _ => step closing ;; setBrowser None
  | None => ret tt
  end.

Definition mkRecord (title imageUrl statusText url : string) (now : Z)
  : ScrapedAnimeData := {|
  title := title;
  slug := generateSlug title;
  imageUrl := imageUrl;
  status := parseStatus statusText;
  description := Some "";
  genres := [];
  episodes := [];
  metadata := {| originalUrl := url; scrapedAt := now; source := "animeindo" |}
|}.

(** The body of the [try] block of [extractAnimeData]. *)
Definition extractAnimeDataBody (element : CheerioElement) (baseUrl : string)
  : M (option ScrapedAnimeData) :=
  titleText <- liftResult (ce_title element) ;;
  let title := Js.trim titleText in
  src <- liftResult (ce_imageSrc element) ;;
  let imageUrl := Js.orElse (match src with Some u => u | None => "" end) "" in
  statusText <- liftResult (ce_status element) ;;
  let status := Js.trim statusText in
  timeText <- liftResult (ce_time element) ;;
  let time := Js.trim timeText in
  if negb (Js.truthy title) || negb (Js.truthy imageUrl) then ret None
  else
    now <- newDate ;;
    ret (Some (mkRecord title imageUrl status baseUrl now)).

(** [extractAnimeData] *)
Definition extractAnimeData (element : CheerioElement) (baseUrl : string)
  : M (option ScrapedAnimeData) :=
  tryCatch (extractAnimeDataBody element baseUrl)
    (fun e => loggerError "Error extracting anime data:" e ;; ret None).

(** The callback of [$('#episodes .episode').each] in [scrapeWithCheerio],
    threaded over the elements with the running index and [animeList]. *)
Fixpoint eachEpisode (url : string) (index : nat)
         (elements : list CheerioElement) (animeList : list ScrapedAnimeData)
  : M (list ScrapedAnimeData) :=
  match elements with
  | [] => ret animeList
  | element :: rest =>
      animeList' <-
        tryCatch
          (anime <- extractAnimeData element url ;;
           match anime with
           | Some a => ret (animeList ++ [a])%list
           | None => ret animeList
           end)
          (fun e =>
             loggerError
               ("Error extracting anime data at index "
                  ++ Js.numberToString (Z.of_nat index) ++ ":") e ;;
             ret animeList) ;;
      eachEpisode url (S index) rest animeList'
  end.

(** [scrapeWithCheerio] *)
Definition scrapeWithCheerio (url : string) : M (list ScrapedAnimeData) :=
  elements <- axiosGet url ;;
  eachEpisode url 0 elements [].

(** [x?.textContent?.trim() || ''] style reads inside [page.evaluate]. *)
Definition trimmedOrEmpty (text : option string) : string :=
  Js.orElse (match text with Some t => Js.trim t | None => "" end) "".

Definition attrOrEmpty (attr : option string) : string :=
  Js.orElse (match attr with Some a => a | None => "" end) "".

Definition flattenOpt {A} (o : option (option A)) : option A :=
  match o with Some x => x | None => None end.

(** The callback of [episodes.forEach] inside [page.evaluate]. *)
Fixpoint evaluateEpisodes (episodes : list (Result DomEpisode))
         (results : list RawItem) : M (list RawItem) :=
  match episodes with
  | [] => ret results
  | episode :: rest =>
      results' <-
        tryCatch
          (ep <- liftResult episode ;;
           match de_title ep, de_image ep with
           | Some titleElement, Some imageElement =>
               ret (results ++
                      [{| ri_title := trimmedOrEmpty titleElement;
                          ri_imageUrl := attrOrEmpty imageElement;
                          ri_status := trimmedOrEmpty (flattenOpt (de_status ep));
                          ri_time := trimmedOrEmpty (flattenOpt (de_time ep)) |}])%list
           | _, _ => ret results
           end)
          (fun e =>
             emit (ConsoleError "Error extracting episode data:" e) ;;
             ret results) ;;
      evaluateEpisodes rest results'
  end.

(** [animeList.map((item, index) => ({ ... }))] *)
Fixpoint mapItems (url : string) (items : list RawItem)
  : M (list ScrapedAnimeData) :=
  match items with
  | [] => ret []
  | item :: rest =>
      now <- newDate ;;
      records <- mapItems url rest ;;
      ret (mkRecord (ri_title item) (ri_imageUrl item) (ri_status item) url now
             :: records)
  end.

(** [this.browser.newPage()] *)
Definition newPage (r : Rendering) (id : nat) : M nat :=
  step (r_newPage r) ;;
  emit (NewPage id) ;;
  setPages (cons id) ;;
  ret id.

(** [page.close()] *)
Definition closePage (id : nat) : M unit :=
  emit (ClosePage id) ;;
  setPages (removeTab id).

(** The [try] block of [scrapeWithPuppeteer]: viewport, user agent,
    navigation, wait for the selector, [page.evaluate], and the mapping of
    the items to records. *)
Definition renderBody (url : string) (r : Rendering)
  : M (list ScrapedAnimeData) :=
  step (r_setViewport r) ;;
  step (r_setUserAgent r) ;;
  step (r_goto r) ;;
  step (r_waitForSelector r) ;;
  episodes <- liftResult (r_evaluate r) ;;
  animeList <- evaluateEpisodes episodes [] ;;
  mapItems url animeList.

(** [scrapeWithPuppeteer] *)
Definition scrapeWithPuppeteer (url : string) : M (list ScrapedAnimeData) :=
  b <- getBrowser ;;
  match b with
  | None => throw (Error "Browser not initialized")
  | Some _ =>
      t <- tick ;;
      let r := w_render w t url in
      page <- newPage r t ;;
      tryFinally (renderBody url r) (closePage page)
  end.

Definition pageUrl (page : Z) : string :=
  "http://animeindo.web.id/page/" ++ Js.numberToString page ++ "/".

(** The operation that [scrapeAnimePage] hands to the retry service: one
    attempt to fetch a page, on the configured path. *)
Definition scrapeAttempt (url : string) : M (list ScrapedAnimeData) :=
  if usePuppeteer config then scrapeWithPuppeteer url
  else scrapeWithCheerio url.

(** [scrapeAnimePage]; the retry service was built with [config.retries]. *)
Definition scrapeAnimePage (page : Z) : M (list ScrapedAnimeData) :=
  let url := pageUrl page in
  retryExecute (retries config) (scrapeAttempt url).

(** One turn of the [for] loop of [scrapeAnimePages]: the [try] block and
    its [catch].  Neither the logger nor [delay] raises, so [results] is
    changed exactly when the whole [try] block goes through. *)
Definition scrapePageInto (results : list ScrapedAnimeData) (page : Z)
  : M (list ScrapedAnimeData) :=
  tryCatch
    (loggerInfo ("Scraping page " ++ Js.numberToString page) ;;
     pageData <- scrapeAnimePage page ;;
     let results' := (results ++ pageData)%list in
     delayMs (delay config) ;;
     ret results')
    (fun e =>
       loggerError ("Error scraping page " ++ Js.numberToString page ++ ":") e ;;
       ret results).

Fixpoint scrapeLoop (pages : list Z) (results : list ScrapedAnimeData)
  : M (list ScrapedAnimeData) :=
  match pages with
  | [] => ret results
  | page :: rest =>
      results' <- scrapePageInto results page ;;
      scrapeLoop rest results'
  end.

(** [scrapeAnimePages] *)
Definition scrapeAnimePages (pages : list Z) : M (list ScrapedAnimeData) :=
  scrapeLoop pages [].

End Service.

(* ------------------------------------------------------------------ *)
(** ** Vocabulary of the properties *)

(** The status markers in the order [parseStatus] tests them, each with
    its category. *)
Definition statusMarkers : list (string * string) :=
  [ ("ongoing", "ongoing"); ("berlangsung", "ongoing");
    ("completed", "completed"); ("selesai", "completed");
    ("upcoming", "upcoming"); ("akan datang", "upcoming") ].

(** A text contains a marker when its lower-cased form includes it. *)
Definition containsMarker (text marker : string) : bool :=
  Js.includes (Js.toLowerCase text) marker.

Definition firstMarker (text : string) : option (string * string) :=
  find (fun m => containsMarker text (fst m)) statusMarkers.

(** Shape of a slug. *)
Definition slugUnit (c : ascii) : bool :=
  Js.isLowerAZ c || Js.isDigit c || Js.isHyphen c.

Fixpoint allUnits (p : ascii -> bool) (s : string) : bool :=
  match s with
  | EmptyString => true
  | String c s' => p c && allUnits p s'
  end.

Fixpoint hasDoubleHyphen (s : string) : bool :=
  match s with
  | String a ((String b _) as s') =>
      (Js.isHyphen a && Js.isHyphen b) || hasDoubleHyphen s'
  | _ => false
  end.

Definition startsWithHyphen (s : string) : bool :=
  match s with String c _ => Js.isHyphen c | EmptyString => false end.

Fixpoint endsWithHyphen (s : string) : bool :=
  match s with
  | EmptyString => false
  | String c EmptyString => Js.isHyphen c
  | String _ s' => endsWithHyphen s'
  end.

(** The fields every record is created with. *)
Definition fixedFields (url : string) (r : ScrapedAnimeData) : Prop :=
  description r = Some "" /\ genres r = [] /\ episodes r = [] /\
  source (metadata r) = "animeindo" /\ originalUrl (metadata r) = url.

Definition nonEmptyFields (r : ScrapedAnimeData) : Prop :=
  Js.truthy (title r) = true /\ Js.truthy (imageUrl r) = true.

(** The entry that the [catch] of [scrapeAnimePages] logs for a page. *)
Definition pageErrorLog (page : Z) (e : JsError) : Event :=
  Log LError ("Error scraping page " ++ Js.numberToString page ++ ":") (Some e).

Definition pageStartLog (page : Z) : Event :=
  Log LInfo ("Scraping page " ++ Js.numberToString page) None.

Definition isPageErrorLog (ev : Event) : bool :=
  match ev with
  | Log LError msg (Some _) => prefix "Error scraping page " msg
  | _ => false
  end.

Definition isPageStartLog (ev : Event) : bool :=
  match ev with
  | Log LInfo msg None => prefix "Scraping page " msg
  | _ => false
  end.

Definition pageErrors (trace : list Event) : list Event :=
  filter isPageErrorLog trace.

Definition loggedFailure (trace : list Event) (page : Z) : bool :=
  existsb
    (fun ev =>
       match ev with
       | Log LError msg (Some _) =>
           String.eqb msg ("Error scraping page " ++ Js.numberToString page ++ ":")
       | _ => false
       end) trace.

(** The pages of a run whose failure was logged. *)
Definition failedPages (pages : list Z) (trace : list Event) : list Z :=
  filter (loggedFailure trace) pages.

(** A run summary in the sense of a [RunResult]: some reading of the
    returned value gives the failed pages and the number of pages that
    succeeded. *)
Definition ReportsRun
           (errorsOf : Result (list ScrapedAnimeData) -> list Z)
           (pagesSucceededOf : Result (list ScrapedAnimeData) -> nat)
           (w : World) (config : ScrapingConfig) (pages : list Z) : Prop :=
  let out := scrapeAnimePages w config pages initialState in
  let failed := failedPages pages (st_trace (snd out)) in
  errorsOf (fst out) = failed /\
  pagesSucceededOf (fst out) = (List.length pages - List.length failed)%nat.

(** Every page start but the first comes right after a sleep of [d]. *)
Definition SleepsBeforeEachNextPage (d : Z) (trace : list Event) : Prop :=
  forall pre ev post,
    trace = (pre ++ ev :: post)%list ->
    isPageStartLog ev = true ->
    pre <> [] ->
    exists pre', pre = (pre' ++ [Sleep d])%list.

(** The run does not end on a sleep of [d]. *)
Definition NoSleepAfterLastPage (d : Z) (trace : list Event) : Prop :=
  forall pre, trace <> (pre ++ [Sleep d])%list.

(** An element whose four reads go through. *)
Definition element (titleText src statusText : string) : CheerioElement := {|
  ce_title := Ok titleText;
  ce_imageSrc := Ok (Some src);
  ce_status := Ok statusText;
  ce_time := Ok ""
|}.

Definition extractable (el : CheerioElement) (titleText src : string) : Prop :=
  ce_title el = Ok titleText /\
  ce_imageSrc el = Ok (Some src) /\
  (exists st, ce_status el = Ok st) /\
  (exists tm, ce_time el = Ok tm) /\
  Js.truthy (Js.trim titleText) = true /\
  Js.truthy src = true.

(** [c] moves every state to one related to it by [R], whether it returns
    or throws. *)
Definition Steps {A} (R : State -> State -> Prop) (c : M A) : Prop :=
  forall s, R s (snd (c s)).

(** Whatever [c] returns satisfies [P]. *)
Definition Produces {A} (P : A -> Prop) (c : M A) : Prop :=
  forall s a s', c s = (Ok a, s') -> P a.

(** [c] never throws. *)
Definition Total {A} (c : M A) : Prop :=
  forall s, exists a s', c s = (Ok a, s').

(** The state right after [browser.newPage()] went through. *)
Definition tabOpened (s : State) : State := {|
  st_browser := st_browser s;
  st_pages := st_tick s :: st_pages s;
  st_tick := S (st_tick s);
  st_trace := (st_trace s ++ [NewPage (st_tick s)])%list
|}.

Definition sameBrowser (s s' : State) : Prop := st_browser s' = st_browser s.

Definition samePages (s s' : State) : Prop := st_pages s' = st_pages s.

(** Only events were added, and the page-error entries among them are
    [errs]. *)
Definition logging (errs : list Event) (s s' : State) : Prop :=
  exists tr, st_trace s' = (st_trace s ++ tr)%list /\ pageErrors tr = errs.

(** Only events were added, none of them a page-error entry. *)
Definition quietly (s s' : State) : Prop := logging [] s s'.

(** The first rendered fetch of a fresh service goes through and leaves a
    browser behind. *)
Definition FirstFetchLaunches (w : World) (url : string) : Prop :=
  exists records s',
    scrapeWithPuppeteer w url initialState = (Ok records, s') /\
    st_browser s' <> None.

(** What a caller can tell of a record: title, image URL and page URL. *)
Definition summary (r : ScrapedAnimeData) : string * string * string :=
  (title r, imageUrl r, originalUrl (metadata r)).

(** Every attempt to fetch [url], on a service whose browser is [browser],
    returns records with the summaries [expected]. *)
Definition AlwaysYields (w : World) (config : ScrapingConfig)
           (browser : option nat) (url : string)
           (expected : list (string * string * string)) : Prop :=
  forall s,
    st_browser s = browser ->
    exists records s',
      scrapeAttempt w config url s = (Ok records, s') /\
      map summary records = expected.

(** Every attempt to fetch [url], on a service whose browser is [browser],
    throws. *)
Definition AlwaysFails (w : World) (config : ScrapingConfig)
           (browser : option nat) (url : string) : Prop :=
  forall s,
    st_browser s = browser ->
    exists e, fst (scrapeAttempt w config url s) = Throw e.

(* ------------------------------------------------------------------ *)
(** ** Concrete environments *)

Definition smoothRendering (episodes : list (Result DomEpisode)) : Rendering := {|
  r_newPage := None;
  r_setViewport := None;
  r_setUserAgent := None;
  r_goto := None;
  r_waitForSelector := None;
  r_evaluate := Ok episodes
|}.

Definition worldOf (http : string -> HttpOutcome)
           (episodes : list (Result DomEpisode)) : World := {|
  w_http := fun _ url => http url;
  w_render := fun _ _ => smoothRendering episodes;
  w_launch := fun _ => None;
  w_clock := fun _ => 1700000000000%Z;
  w_backoff := fun attempt => (1000 * Z.of_nat (S attempt))%Z
|}.

Definition twoItems (a b : string) : HttpOutcome :=
  HttpOk [ element a ("/img/" ++ a ++ ".jpg") "Ongoing";
           element b ("/img/" ++ b ++ ".jpg") "Completed" ].

(** Pages 1 and 3 carry two items each; page 2 answers 500 every time. *)
Definition httpPage2Down (url : string) : HttpOutcome :=
  if String.eqb url (pageUrl 1) then twoItems "Naruto" "Bleach"
  else if String.eqb url (pageUrl 3) then twoItems "Gintama" "Monster"
  else HttpFail (Some 500%Z).

(** The same site when page 2 answers with a listing without items. *)
Definition httpPage2Empty (url : string) : HttpOutcome :=
  if String.eqb url (pageUrl 1) then twoItems "Naruto" "Bleach"
  else if String.eqb url (pageUrl 3) then twoItems "Gintama" "Monster"
  else HttpOk [].

Definition worldPage2Down : World := worldOf httpPage2Down [].
Definition worldPage2Empty : World := worldOf httpPage2Empty [].

(** Page 1 answers 404, every other page carries one item. *)
Definition httpPage1Missing (url : string) : HttpOutcome :=
  if String.eqb url (pageUrl 1) then HttpFail (Some 404%Z)
  else HttpOk [ element "Naruto" "/img/naruto.jpg" "Ongoing" ].

Definition worldPage1Missing : World := worldOf httpPage1Missing [].

Definition noRetryConfig : ScrapingConfig := {|
  usePuppeteer := false;
  timeout := 30000;
  retries := 0;
  delay := 1000;
  userAgent := "test-agent";
  proxy := None
|}.

Definition renderedConfig : ScrapingConfig := {|
  usePuppeteer := true;
  timeout := 30000;
  retries := 0;
  delay := 1000;
  userAgent := "test-agent";
  proxy := None
|}.

(** A rendered listing with one episode whose title link has only white
    space as text and whose image has no [src] attribute. *)
Definition blankEpisode : DomEpisode := {|
  de_image := Some None;
  de_title := Some (Some "   ");
  de_status := None;
  de_time := None
|}.

Definition worldBlankEpisode : World :=
  worldOf (fun _ => HttpOk []) [Ok blankEpisode].

(** A rendered listing with one ordinary episode. *)
Definition plainEpisode : DomEpisode := {|
  de_image := Some (Some "/img/naruto.jpg");
  de_title := Some (Some " Naruto ");
  de_status := Some (Some "Ongoing");
  de_time := None
|}.

Definition worldPlainEpisode : World :=
  worldOf (fun _ => HttpOk []) [Ok plainEpisode].

(** The service after a successful [initializeBrowser]. *)
Definition launchedState : State := {|
  st_browser := Some 0;
  st_pages := [];
  st_tick := 1;
  st_trace := [Launch]
|}.

(* ------------------------------------------------------------------ *)
(** ** Further operations and their vocabulary *)

(** [getStats]: the configuration and whether a browser is held. *)
Definition getStats (config : ScrapingConfig) : M (ScrapingConfig * bool) :=
  b <- getBrowser ;;
  ret (config, match b with Some _ => true | None => false end).

(** The cards of the front end (src/components/AnimeCard.tsx):
    [getStatusColor] and [getStatusText], each a [switch] on
    [status.toLowerCase()]. *)
Definition getStatusColor (status : string) : string :=
  let s := Js.toLowerCase status in
  if String.eqb s "ongoing" then "primary"
  else if String.eqb s "completed" then "success"
  else if String.eqb s "upcoming" then "warning"
  else "default".

Definition getStatusText (status : string) : string :=
  let s := Js.toLowerCase status in
  if String.eqb s "ongoing" then "Ongoing"
  else if String.eqb s "completed" then "Completed"
  else if String.eqb s "upcoming" then "Upcoming"
  else status.

(** The values of the [status] enumeration. *)
Definition statusValues : list string := ["ongoing"; "completed"; "upcoming"].

(** The first of the four reads of an element that raises, if any. *)
Definition readError (el : CheerioElement) : option JsError :=
  match ce_title el, ce_imageSrc el, ce_status el, ce_time el with
  | Throw e, _, _, _ => Some e
  | Ok _, Throw e, _, _ => Some e
  | Ok _, Ok _, Throw e, _ => Some e
  | Ok _, Ok _, Ok _, Throw e => Some e
  | Ok _, Ok _, Ok _, Ok _ => None
  end.

(** The trimmed title, the image URL and the trimmed status text of an
    element whose reads go through and whose title and image URL are not
    empty. *)
Definition itemOf (el : CheerioElement) : option (string * string * string) :=
  match ce_title el, ce_imageSrc el, ce_status el, ce_time el with
  | Ok titleText, Ok (Some src), Ok statusText, Ok _ =>
      if Js.truthy (Js.trim titleText) && Js.truthy src then
        Some (Js.trim titleText, src, Js.trim statusText)
      else None
  | _, _, _, _ => None
  end.

(** Title, image URL and status of a record. *)
Definition content (r : ScrapedAnimeData) : string * string * string :=
  (title r, imageUrl r, status r).

Definition staticContent (el : CheerioElement)
  : list (string * string * string) :=
  match itemOf el with
  | Some (t, u, st) => [(t, u, parseStatus st)]
  | None => []
  end.

(** The entry that the [catch] of [extractAnimeData] logs. *)
Definition extractErrorLog (e : JsError) : Event :=
  Log LError "Error extracting anime data:" (Some e).

Definition extractErrors (els : list CheerioElement) : list Event :=
  flat_map (fun el => match readError el with
                      | Some e => [extractErrorLog e]
                      | None => []
                      end) els.

(** What the rendered path keeps of an episode: an item when the title
    link and the image both exist, whatever their content. *)
Definition renderedContent (episode : Result DomEpisode)
  : list (string * string * string) :=
  match episode with
  | Ok d =>
      match de_title d, de_image d with
      | Some titleElement, Some imageElement =>
          [(trimmedOrEmpty titleElement, attrOrEmpty imageElement,
            parseStatus (trimmedOrEmpty (flattenOpt (de_status d))))]
      | _, _ => []
      end
  | Throw _ => []
  end.

(** Title, image URL and normalised status of a raw item. *)
Definition rawContent (item : RawItem) : string * string * string :=
  (ri_title item, ri_imageUrl item, parseStatus (ri_status item)).

Definition consoleErrors (episodes : list (Result DomEpisode)) : list Event :=
  flat_map (fun ep => match ep with
                      | Throw e => [ConsoleError "Error extracting episode data:" e]
                      | Ok _ => []
                      end) episodes.

(** The first call of the [try] block of [scrapeWithPuppeteer] that
    rejects, in the order the block makes them. *)
Definition firstRejection (r : Rendering) : option JsError :=
  match r_setViewport r, r_setUserAgent r, r_goto r, r_waitForSelector r,
        r_evaluate r with
  | Some e, _, _, _, _ => Some e
  | None, Some e, _, _, _ => Some e
  | None, None, Some e, _, _ => Some e
  | None, None, None, Some e, _ => Some e
  | None, None, None, None, Throw e => Some e
  | None, None, None, None, Ok _ => None
  end.

(** What holds of every record, on either path. *)
Definition wellFormed (r : ScrapedAnimeData) : Prop :=
  slug r = generateSlug (title r) /\
  Js.trim (title r) = title r /\
  In (status r) statusValues.

(** The state after [n] more ticks. *)
Definition advanced (s : State) (n : nat) : State := {|
  st_browser := st_browser s;
  st_pages := st_pages s;
  st_tick := n + st_tick s;
  st_trace := st_trace s
|}.

Definition withEvents (s : State) (evs : list Event) : State := {|
  st_browser := st_browser s;
  st_pages := st_pages s;
  st_tick := st_tick s;
  st_trace := (st_trace s ++ evs)%list
|}.

(** The error of the guard of [scrapeWithPuppeteer]. *)
Definition notInitialized : JsError := Error "Browser not initialized".

(** The waits of the retry service before the attempts that follow the
    first, from attempt number [attempt] on. *)
Definition retryWaits (w : World) (attempt n : nat) : list Event :=
  map (fun k => RetryWait (w_backoff w k)) (seq attempt n).

(** The events of one page of a run on a service that is set up for
    rendered fetches but holds no browser. *)
Definition refusedPage (w : World) (config : ScrapingConfig) (page : Z)
  : list Event :=
  (pageStartLog page :: retryWaits w 0 (retries config)
     ++ [pageErrorLog page notInitialized])%list.

(** An element whose title read raises. *)
Definition brokenElement : CheerioElement := {|
  ce_title := Throw (Error "Cannot read properties of undefined");
  ce_imageSrc := Ok (Some "/img/broken.jpg");
  ce_status := Ok "";
  ce_time := Ok ""
|}.

(** A listing with a complete item, an item with a blank title, an item
    without [src], an item whose read raises, and another complete item. *)
Definition mixedListing : list CheerioElement :=
  [ element "Naruto" "/img/naruto.jpg" "Ongoing";
    element "   " "/img/blank.jpg" "";
    {| ce_title := Ok "One Piece"; ce_imageSrc := Ok None;
       ce_status := Ok ""; ce_time := Ok "" |};
    brokenElement;
    element " Bleach " "/img/bleach.jpg" "Sudah Selesai" ].

(** The same listing in the rendered document. *)
Definition mixedEpisodes : list (Result DomEpisode) :=
  [ Ok plainEpisode;
    Ok blankEpisode;
    Ok {| de_image := None; de_title := Some (Some "One Piece");
          de_status := None; de_time := None |};
    Throw (Error "Cannot read properties of undefined");
    Ok {| de_image := Some (Some "/img/bleach.jpg");
          de_title := Some (Some " Bleach ");
          de_status := Some (Some "Sudah Selesai"); de_time := None |} ].

Definition worldMixed : World :=
  worldOf (fun _ => HttpOk mixedListing) mixedEpisodes.

(** Every request is answered with 429. *)
Definition worldRateLimited : World :=
  worldOf (fun _ => HttpFail (Some 429%Z)) [].



(** *** The proxy of the request interceptor *)

(** [s.split(':')] *)
Fixpoint splitColon (s : string) : list string :=
  match s with
  | EmptyString => [EmptyString]
  | String c s' =>
      if Ascii.eqb c ":" then EmptyString :: splitColon s'
      else
        match splitColon s' with
        | piece :: rest => String c piece :: rest
        | [] => [String c EmptyString]
        end
  end.

Definition decimalDigit (c : ascii) : option Z :=
  if Js.isDigit c then Some (Z.of_nat (Js.code c - 48)) else None.

Definition hexDigit (c : ascii) : option Z :=
  let n := Js.code c in
  if Js.isDigit c then Some (Z.of_nat (n - 48))
  else if Js.between 97 102 n then Some (Z.of_nat (n - 87))
  else if Js.between 65 70 n then Some (Z.of_nat (n - 55))
  else None.

(** The value of the longest run of digits at the start of [s]; [acc] is
    the value of the digits read so far, [None] when there is none yet. *)
Fixpoint digitsValue (digit : ascii -> option Z) (radix : Z)
         (acc : option Z) (s : string) : option Z :=
  match s with
  | EmptyString => acc
  | String c s' =>
      match digit c with
      | Some d =>
          digitsValue digit radix
            (Some (radix * match acc with Some a => a | None => 0 end + d)%Z) s'
      | None => acc
      end
  end.

Definition stripSign (s : string) : bool * string :=
  match s with
  | String c r =>
      if Ascii.eqb c "-" then (true, r)
      else if Ascii.eqb c "+" then (false, r)
      else (false, s)
  | EmptyString => (false, s)
  end.

Definition hexPrefixed (s : string) : option string :=
  match s with
  | String c (String x r) =>
      if Ascii.eqb c "0" && (Ascii.eqb x "x" || Ascii.eqb x "X") then Some r
      else None
  | _ => None
  end.

(** [parseInt(text)] without radix: leading white space is skipped, a
    sign is read, a prefix [0x] or [0X] selects radix 16, and the longest
    run of digits is read; [None] stands for [NaN].  The value is the
    mathematical integer, which a JavaScript number holds exactly below
    2^53. *)
Definition parseIntString (text : string) : option Z :=
  let (negative, body) := stripSign (Js.trimStart text) in
  let magnitude :=
    match hexPrefixed body with
    | Some digits => digitsValue hexDigit 16 None digits
    | None => digitsValue decimalDigit 10 None body
    end in
  option_map (fun v => if negative then (- v)%Z else v) magnitude.

(** [parseInt(x)] where [x] may be [undefined], whose text "undefined"
    has no digit. *)
Definition parseInt (arg : option string) : option Z :=
  match arg with
  | Some text => parseIntString text
  | None => None
  end.

Record AxiosProxy := {
  host : string;
  port : option Z
}.

(** The request interceptor of [setupInterceptors]: the [proxy] it puts on
    a request, if any. *)
Definition requestProxy (config : ScrapingConfig) : option AxiosProxy :=
  match proxy config with
  | Some p =>
      if Js.truthy p then
        Some {| host := hd "" (splitColon p);
                port := parseInt (nth_error (splitColon p) 1) |}
      else None
  | None => None
  end.

Definition noColon (s : string) : bool :=
  allUnits (fun c => negb (Ascii.eqb c ":")) s.

Definition withProxy (p : string) : ScrapingConfig := {|
  usePuppeteer := false;
  timeout := 30000;
  retries := 3;
  delay := 1000;
  userAgent := "test-agent";
  proxy := Some p
|}.

(* ------------------------------------------------------------------ *)
(** ** The text transforms *)

Example generateSlug_plain :
  generateSlug "Naruto Shippuden  (2007)" = "naruto-shippuden-2007".
Proof. reflexivity. Qed.

Example parseStatus_indonesian : parseStatus "Sudah SELESAI" = "completed".
Proof. reflexivity. Qed.

Example trim_both : Js.trim "  a b  " = "a b".
Proof. reflexivity. Qed.

Example pageUrl_12 : pageUrl 12 = "http://animeindo.web.id/page/12/".
Proof. reflexivity. Qed.

Lemma slugClass_split (c : ascii) :
  slugClass c = true -> Js.isWhiteSpace c = false -> slugUnit c = true.
Proof.
  unfold slugClass, slugUnit.
  destruct (Js.isLowerAZ c), (Js.isDigit c), (Js.isHyphen c); simpl; auto.
  intros H1 H2. rewrite H2 in H1. discriminate.
Qed.

Lemma slugUnit_not_space (c : ascii) :
  slugUnit c = true -> Js.isWhiteSpace c = false.
Proof.
  destruct c as [[] [] [] [] [] [] [] []]; vm_compute; intro H;
    first [reflexivity | discriminate H].
Qed.

Lemma slugUnit_hyphen : slugUnit Js.hyphen = true.
Proof. reflexivity. Qed.

Lemma keepOnly_all (p : ascii -> bool) (s : string) :
  allUnits p (Js.keepOnly p s) = true.
Proof.
  induction s as [|c s IH]; simpl; [reflexivity|].
  destruct (p c) eqn:E; simpl; [rewrite E|]; auto.
Qed.

(** Replacing the white-space runs of a string over the class of
    [generateSlug] leaves only [a-z0-9-]. *)
Lemma collapse_space_units (s : string) (b : bool) :
  allUnits slugClass s = true ->
  allUnits slugUnit (Js.collapseFrom b Js.isWhiteSpace Js.hyphen s) = true.
Proof.
  revert b. induction s as [|c s IH]; intros b H; simpl in *; [reflexivity|].
  apply andb_prop in H. destruct H as [Hc Hs].
  destruct (Js.isWhiteSpace c) eqn:E.
  - destruct b; simpl; auto.
  - simpl. rewrite (slugClass_split c Hc E). simpl. auto.
Qed.

Lemma collapse_hyphen_units (s : string) (b : bool) :
  allUnits slugUnit s = true ->
  allUnits slugUnit (Js.collapseFrom b Js.isHyphen Js.hyphen s) = true.
Proof.
  revert b. induction s as [|c s IH]; intros b H; simpl in *; [reflexivity|].
  apply andb_prop in H. destruct H as [Hc Hs].
  destruct (Js.isHyphen c) eqn:E.
  - destruct b; simpl; auto.
  - simpl. rewrite Hc. simpl. auto.
Qed.

(** After [replace(/-+/g, '-')] no two hyphens are adjacent; inside a run
    the output does not start with a hyphen. *)
Lemma collapse_hyphen_single (s : string) :
  (forall b, hasDoubleHyphen (Js.collapseFrom b Js.isHyphen Js.hyphen s) = false)
  /\ startsWithHyphen (Js.collapseFrom true Js.isHyphen Js.hyphen s) = false.
Proof.
  induction s as [|c s [IHd IHs]]; [split; [intros []|]; reflexivity|].
  split.
  - intros b. simpl. destruct (Js.isHyphen c) eqn:E.
    + destruct b; [apply IHd|].
      specialize (IHd true).
      destruct (Js.collapseFrom true Js.isHyphen Js.hyphen s) as [|d t] eqn:Et;
        [reflexivity|].
      simpl in IHs. change (hasDoubleHyphen (String Js.hyphen (String d t)))
        with ((Js.isHyphen Js.hyphen && Js.isHyphen d)
              || hasDoubleHyphen (String d t)).
      rewrite IHs, IHd. reflexivity.
    + specialize (IHd false).
      destruct (Js.collapseFrom false Js.isHyphen Js.hyphen s) as [|d t] eqn:Et;
        [reflexivity|].
      change (hasDoubleHyphen (String c (String d t)))
        with ((Js.isHyphen c && Js.isHyphen d) || hasDoubleHyphen (String d t)).
      rewrite E, IHd. reflexivity.
  - simpl. destruct (Js.isHyphen c) eqn:E; [exact IHs|]. simpl. exact E.
Qed.

Lemma trimEnd_no_space (s : string) :
  allUnits slugUnit s = true -> Js.trimEnd s = s.
Proof.
  induction s as [|c s IH]; simpl; [reflexivity|].
  intro H. apply andb_prop in H. destruct H as [Hc Hs].
  rewrite (IH Hs). destruct s; [|reflexivity].
  rewrite (slugUnit_not_space c Hc). reflexivity.
Qed.

Lemma trim_no_space (s : string) :
  allUnits slugUnit s = true -> Js.trim s = s.
Proof.
  intro H. unfold Js.trim.
  assert (Js.trimStart s = s) as ->.
  { destruct s as [|c s]; [reflexivity|]. simpl in *.
    apply andb_prop in H. destruct H as [Hc _].
    rewrite (slugUnit_not_space c Hc). reflexivity. }
  apply trimEnd_no_space. exact H.
Qed.

(** The final [trim()] of [generateSlug] never removes anything: no white
    space is left when it runs. *)
Lemma generateSlug_trim_idle (title : string) :
  generateSlug title =
  Js.replaceRuns Js.isHyphen Js.hyphen
    (Js.replaceRuns Js.isWhiteSpace Js.hyphen
       (Js.keepOnly slugClass (Js.toLowerCase title))).
Proof.
  unfold generateSlug. apply trim_no_space.
  apply collapse_hyphen_units, collapse_space_units, keepOnly_all.
Qed.

(** The two parts of the slug shape that hold for every title: only
    [a-z0-9-], and no two hyphens in a row. *)
Lemma generateSlug_units_and_runs (title : string) :
  allUnits slugUnit (generateSlug title) = true /\
  hasDoubleHyphen (generateSlug title) = false.
Proof.
  rewrite generateSlug_trim_idle. split.
  - apply collapse_hyphen_units, collapse_space_units, keepOnly_all.
  - apply collapse_hyphen_single.
Qed.

(** C3: on the title "~ Naruto ~" the slug is "-naruto-": it starts and
    ends with a hyphen, so the claimed shape (no leading or trailing
    hyphen) is broken; the closing [trim()] strips white space only. *)
Theorem generateSlug_keeps_edge_hyphens :
  generateSlug "~ Naruto ~" = "-naruto-" /\
  startsWithHyphen (generateSlug "~ Naruto ~") = true /\
  endsWithHyphen (generateSlug "~ Naruto ~") = true.
Proof. repeat split. Qed.

(** C10: the title "!!!" has the empty slug, and the static path turns an
    item with that title into a record whose title is "!!!" and whose
    slug is empty. *)
Theorem empty_slug_for_nonempty_title :
  generateSlug "!!!" = "" /\
  exists r s',
    extractAnimeData worldPage2Down (element "!!!" "/img/x.jpg" "Ongoing")
      (pageUrl 1) initialState = (Ok (Some r), s') /\
    title r = "!!!" /\ slug r = "" /\ Js.truthy (title r) = true.
Proof.
  split; [reflexivity|].
  eexists. eexists. split; [reflexivity|]. repeat split.
Qed.

(** *** Case-insensitive containment *)

Lemma toLowerCase_app (a b : string) :
  Js.toLowerCase (a ++ b) = Js.toLowerCase a ++ Js.toLowerCase b.
Proof.
  induction a as [|c a IH]; simpl; [reflexivity|]. rewrite IH. reflexivity.
Qed.

Lemma toLowerCase_split (a b : string) :
  forall s, Js.toLowerCase s = a ++ b ->
    exists sa sb,
      s = sa ++ sb /\ Js.toLowerCase sa = a /\ Js.toLowerCase sb = b.
Proof.
  induction a as [|c a IH]; intros s E; simpl in E.
  - exists "", s. repeat split. exact E.
  - destruct s as [|d s]; simpl in E; [discriminate E|].
    inversion E as [[Ec Es]].
    destruct (IH s Es) as (sa & sb & -> & Ha & Hb).
    exists (String d sa), sb. simpl. rewrite Ha. repeat split. exact Hb.
Qed.

Lemma prefix_iff (sub : string) :
  forall s, prefix sub s = true <-> exists post, s = sub ++ post.
Proof.
  induction sub as [|a sub IH]; intro s.
  - split; [intros _; exists s; reflexivity | destruct s; reflexivity].
  - destruct s as [|b s]; simpl.
    + split; [discriminate | intros (post & E); discriminate E].
    + destruct (ascii_dec a b) as [->|N].
      * rewrite IH. split; intros (post & E); exists post.
        -- rewrite E. reflexivity.
        -- inversion E. reflexivity.
      * split; [discriminate|]. intros (post & E). inversion E.
        contradiction N. congruence.
Qed.

Lemma includes_iff (sub : string) :
  forall s, Js.includes s sub = true <->
            exists pre post, s = pre ++ sub ++ post.
Proof.
  induction s as [|c s IH].
  - change (Js.includes "" sub) with (prefix sub "" || false).
    rewrite orb_false_r, prefix_iff. split.
    + intros (post & E). exists "", post. exact E.
    + intros (pre & post & E). destruct pre; [exists post; exact E|].
      discriminate E.
  - change (Js.includes (String c s) sub)
      with (prefix sub (String c s) || Js.includes s sub).
    rewrite orb_true_iff, prefix_iff, IH. split.
    + intros [(post & E) | (pre & post & E)].
      * exists "", post. exact E.
      * exists (String c pre), post. simpl. rewrite E. reflexivity.
    + intros (pre & post & E). destruct pre as [|d pre].
      * left. exists post. exact E.
      * right. inversion E. exists pre, post. reflexivity.
Qed.

(** A text contains a marker exactly when some stretch of it lower-cases
    to the marker. *)
Lemma containsMarker_iff (text marker : string) :
  containsMarker text marker = true <->
  exists pre mid post,
    text = pre ++ mid ++ post /\ Js.toLowerCase mid = marker.
Proof.
  unfold containsMarker. rewrite includes_iff. split.
  - intros (a & b & E).
    destruct (toLowerCase_split a (marker ++ b) text E)
      as (pre & rest & -> & Ha & Hr).
    destruct (toLowerCase_split marker b rest Hr) as (mid & post & -> & Hm & _).
    exists pre, mid, post. split; [reflexivity | exact Hm].
  - intros (pre & mid & post & -> & <-).
    exists (Js.toLowerCase pre), (Js.toLowerCase post).
    rewrite !toLowerCase_app. reflexivity.
Qed.

(** C7, as stated, fails: "Completed (was Ongoing)" contains the marker
    "completed" and is mapped to "ongoing". *)
Lemma parseStatus_marker_category_fails :
  ~ (forall text marker category,
        In (marker, category) statusMarkers ->
        containsMarker text marker = true ->
        parseStatus text = category).
Proof.
  intro H.
  specialize (H "Completed (was Ongoing)" "completed" "completed").
  assert (parseStatus "Completed (was Ongoing)" = "completed") as E.
  { apply H; [simpl; tauto | reflexivity]. }
  vm_compute in E. discriminate E.
Qed.

(** C7, amended: the category is that of the first marker, in the order
    ongoing, berlangsung, completed, selesai, upcoming, akan datang, that
    the lower-cased text includes, and "ongoing" when it includes none. *)
Theorem parseStatus_first_marker (text : string) :
  parseStatus text =
  match firstMarker text with
  | Some (_, category) => category
  | None => "ongoing"
  end.
Proof.
  unfold parseStatus, firstMarker, statusMarkers, containsMarker, find, fst.
  destruct (Js.includes (Js.toLowerCase text) "ongoing"); [reflexivity|].
  destruct (Js.includes (Js.toLowerCase text) "berlangsung"); [reflexivity|].
  destruct (Js.includes (Js.toLowerCase text) "completed"); [reflexivity|].
  destruct (Js.includes (Js.toLowerCase text) "selesai"); [reflexivity|].
  destruct (Js.includes (Js.toLowerCase text) "upcoming"); [reflexivity|].
  destruct (Js.includes (Js.toLowerCase text) "akan datang"); reflexivity.
Qed.

(* ------------------------------------------------------------------ *)
(** ** Reasoning about computations *)

Lemma Produces_ret {A} (P : A -> Prop) (a : A) : P a -> Produces P (ret a).
Proof. intros H s a' s' E. inversion E. subst. exact H. Qed.

Lemma Produces_throw {A} (P : A -> Prop) (e : JsError) : Produces P (throw e).
Proof. intros s a s' E. discriminate E. Qed.

Lemma Produces_bind {A B} (Q : A -> Prop) (P : B -> Prop)
      (c : M A) (k : A -> M B) :
  Produces Q c -> (forall a, Q a -> Produces P (k a)) -> Produces P (bind c k).
Proof.
  intros Hc Hk s b s' E. unfold bind in E.
  destruct (c s) as [[a|e] s1] eqn:Ec; [|discriminate E].
  exact (Hk a (Hc _ _ _ Ec) _ _ _ E).
Qed.

Lemma Produces_any {A} (c : M A) : Produces (fun _ => True) c.
Proof. intros s a s' _. exact I. Qed.

Lemma Produces_tryCatch {A} (P : A -> Prop) (c : M A) (h : JsError -> M A) :
  Produces P c -> (forall e, Produces P (h e)) -> Produces P (tryCatch c h).
Proof.
  intros Hc Hh s a s' E. unfold tryCatch in E.
  destruct (c s) as [[a0|e] s1] eqn:Ec.
  - inversion E. subst. exact (Hc _ _ _ Ec).
  - exact (Hh e _ _ _ E).
Qed.

Lemma Produces_tryFinally {A} (P : A -> Prop) (c : M A) (fin : M unit) :
  Produces P c -> Produces P (tryFinally c fin).
Proof.
  intros Hc s a s' E. unfold tryFinally in E.
  destruct (c s) as [r s1] eqn:Ec.
  destruct (fin s1) as [[u|e] s2]; [|discriminate E].
  inversion E. subst. exact (Hc _ _ _ Ec).
Qed.

Lemma Total_ret {A} (a : A) : Total (ret a).
Proof. intro s. exists a, s. reflexivity. Qed.

Lemma Total_bind {A B} (c : M A) (k : A -> M B) :
  Total c -> (forall a, Total (k a)) -> Total (bind c k).
Proof.
  intros Hc Hk s. destruct (Hc s) as (a & s1 & E).
  destruct (Hk a s1) as (b & s2 & E2).
  exists b, s2. unfold bind. rewrite E. exact E2.
Qed.

Lemma Total_tryCatch {A} (c : M A) (h : JsError -> M A) :
  (forall e, Total (h e)) -> Total (tryCatch c h).
Proof.
  intros Hh s. unfold tryCatch.
  destruct (c s) as [[a|e] s1].
  - exists a, s1. reflexivity.
  - apply Hh.
Qed.

Lemma Total_emit (e : Event) : Total (emit e).
Proof. intro s. eexists. eexists. reflexivity. Qed.

(** *** Frame rules: what a computation leaves related *)

Section Frame.

Variable R : State -> State -> Prop.
Hypothesis R_refl : forall s, R s s.
Hypothesis R_trans : forall s1 s2 s3, R s1 s2 -> R s2 s3 -> R s1 s3.

Lemma Steps_ret {A} (a : A) : Steps R (ret a).
Proof. intro s. apply R_refl. Qed.

Lemma Steps_throw {A} (e : JsError) : Steps R (@throw A e).
Proof. intro s. apply R_refl. Qed.

Lemma Steps_liftResult {A} (r : Result A) : Steps R (liftResult r).
Proof. intro s. apply R_refl. Qed.

Lemma Steps_step (o : option JsError) : Steps R (step o).
Proof. destruct o; intro s; apply R_refl. Qed.

Lemma Steps_getBrowser : Steps R getBrowser.
Proof. intro s. apply R_refl. Qed.

Lemma Steps_bind {A B} (c : M A) (k : A -> M B) :
  Steps R c -> (forall a, Steps R (k a)) -> Steps R (bind c k).
Proof.
  intros Hc Hk s. unfold bind. specialize (Hc s).
  destruct (c s) as [[a|e] s1]; simpl in *; [|exact Hc].
  exact (R_trans _ _ _ Hc (Hk a s1)).
Qed.

Lemma Steps_tryCatch {A} (c : M A) (h : JsError -> M A) :
  Steps R c -> (forall e, Steps R (h e)) -> Steps R (tryCatch c h).
Proof.
  intros Hc Hh s. unfold tryCatch. specialize (Hc s).
  destruct (c s) as [[a|e] s1]; simpl in *; [exact Hc|].
  exact (R_trans _ _ _ Hc (Hh e s1)).
Qed.

Lemma Steps_tryFinally {A} (c : M A) (fin : M unit) :
  Steps R c -> Steps R fin -> Steps R (tryFinally c fin).
Proof.
  intros Hc Hf s. unfold tryFinally. specialize (Hc s).
  destruct (c s) as [r s1]; simpl in *. specialize (Hf s1).
  destruct (fin s1) as [[u|e] s2]; simpl in *;
    exact (R_trans _ _ _ Hc Hf).
Qed.

Hypothesis R_tick : forall s, R s (snd (tick s)).
Hypothesis R_event :
  forall s e, isPageErrorLog e = false -> R s (withEvent s e).

Lemma Steps_tick : Steps R tick.
Proof. exact R_tick. Qed.

Lemma Steps_emit (e : Event) : isPageErrorLog e = false -> Steps R (emit e).
Proof. intros H s. apply R_event. exact H. Qed.

Variable w : World.

Lemma Steps_newDate : Steps R (newDate w).
Proof.
  apply Steps_bind; [apply Steps_tick | intro; apply Steps_ret].
Qed.

Lemma Steps_axiosGet (url : string) : Steps R (axiosGet w url).
Proof.
  apply Steps_bind; [apply Steps_tick | intro t].
  apply Steps_bind; [apply Steps_emit; reflexivity | intros _].
  destruct (w_http w t url) as [els|st]; [apply Steps_ret|].
  destruct (statusIs st 429); [|apply Steps_throw].
  apply Steps_bind; [apply Steps_emit; reflexivity | intros _].
  apply Steps_throw.
Qed.

Lemma Steps_extractAnimeData (el : CheerioElement) (url : string) :
  Steps R (extractAnimeData w el url).
Proof.
  apply Steps_tryCatch.
  - unfold extractAnimeDataBody.
    apply Steps_bind; [apply Steps_liftResult | intro t].
    apply Steps_bind; [apply Steps_liftResult | intro i].
    apply Steps_bind; [apply Steps_liftResult | intro st].
    apply Steps_bind; [apply Steps_liftResult | intro tm].
    match goal with |- context [if ?b then _ else _] => destruct b end.
    + apply Steps_ret.
    + apply Steps_bind; [apply Steps_newDate | intro; apply Steps_ret].
  - intro e. apply Steps_bind;
      [apply Steps_emit; reflexivity | intro; apply Steps_ret].
Qed.

Lemma Steps_eachEpisode (url : string) (els : list CheerioElement) :
  forall index acc, Steps R (eachEpisode w url index els acc).
Proof.
  induction els as [|el els IH]; intros index acc; simpl.
  - apply Steps_ret.
  - apply Steps_bind; [|intro; apply IH].
    apply Steps_tryCatch.
    + apply Steps_bind; [apply Steps_extractAnimeData | intros [a|]];
        apply Steps_ret.
    + intro e. apply Steps_bind;
        [apply Steps_emit; reflexivity | intro; apply Steps_ret].
Qed.

Lemma Steps_scrapeWithCheerio (url : string) :
  Steps R (scrapeWithCheerio w url).
Proof.
  apply Steps_bind; [apply Steps_axiosGet | intro; apply Steps_eachEpisode].
Qed.

Lemma Steps_evaluateEpisodes (eps : list (Result DomEpisode)) :
  forall acc, Steps R (evaluateEpisodes eps acc).
Proof.
  induction eps as [|ep eps IH]; intros acc; simpl.
  - apply Steps_ret.
  - apply Steps_bind; [|intro; apply IH].
    apply Steps_tryCatch.
    + apply Steps_bind; [apply Steps_liftResult | intro d].
      destruct (de_title d), (de_image d); apply Steps_ret.
    + intro e. apply Steps_bind;
        [apply Steps_emit; reflexivity | intro; apply Steps_ret].
Qed.

Lemma Steps_mapItems (url : string) (items : list RawItem) :
  Steps R (mapItems w url items).
Proof.
  induction items as [|it items IH]; simpl.
  - apply Steps_ret.
  - apply Steps_bind; [apply Steps_newDate | intro now].
    apply Steps_bind; [exact IH | intro; apply Steps_ret].
Qed.

(** The [try] block of [scrapeWithPuppeteer]. *)
Lemma Steps_renderBody (url : string) (r : Rendering) :
  Steps R (renderBody w url r).
Proof.
  unfold renderBody.
  repeat (apply Steps_bind; [apply Steps_step | intros _]).
  apply Steps_bind; [apply Steps_liftResult | intro eps].
  apply Steps_bind; [apply Steps_evaluateEpisodes | intro; apply Steps_mapItems].
Qed.

Lemma Steps_retryFrom {A} (op : M A) :
  Steps R op -> forall n attempt, Steps R (retryFrom w attempt n op).
Proof.
  intros Hop. induction n as [|n IH]; intros attempt; simpl;
    apply Steps_tryCatch; try exact Hop; intro e.
  - apply Steps_throw.
  - apply Steps_bind; [apply Steps_emit; reflexivity | intro; apply IH].
Qed.

Hypothesis R_setPages : forall s g, R s (snd (setPages g s)).

Lemma Steps_scrapeWithPuppeteer (url : string) :
  Steps R (scrapeWithPuppeteer w url).
Proof.
  apply Steps_bind; [apply Steps_getBrowser | intros [b|]];
    [|apply Steps_throw].
  apply Steps_bind; [apply Steps_tick | intro t].
  apply Steps_bind.
  - apply Steps_bind; [apply Steps_step | intros _].
    apply Steps_bind; [apply Steps_emit; reflexivity | intros _].
    apply Steps_bind; [intro s; apply R_setPages | intro; apply Steps_ret].
  - intro page. apply Steps_tryFinally; [apply Steps_renderBody|].
    apply Steps_bind; [apply Steps_emit; reflexivity | intros _].
    intro s; apply R_setPages.
Qed.

Variable config : ScrapingConfig.

Lemma Steps_scrapeAttempt (url : string) :
  Steps R (scrapeAttempt w config url).
Proof.
  unfold scrapeAttempt. destruct (usePuppeteer config);
    [apply Steps_scrapeWithPuppeteer | apply Steps_scrapeWithCheerio].
Qed.

Lemma Steps_scrapeAnimePage (page : Z) :
  Steps R (scrapeAnimePage w config page).
Proof.
  unfold scrapeAnimePage, retryExecute. apply Steps_retryFrom.
  apply Steps_scrapeAttempt.
Qed.

Hypothesis R_pageError :
  forall s page e, R s (withEvent s (pageErrorLog page e)).

Lemma Steps_scrapeAnimePages (pages : list Z) :
  Steps R (scrapeAnimePages w config pages).
Proof.
  unfold scrapeAnimePages. generalize (@nil ScrapedAnimeData).
  induction pages as [|p pages IH]; intro acc; simpl.
  - apply Steps_ret.
  - apply Steps_bind; [|intro; apply IH].
    apply Steps_tryCatch.
    + apply Steps_bind; [apply Steps_emit; reflexivity | intros _].
      apply Steps_bind; [apply Steps_scrapeAnimePage | intro d].
      apply Steps_bind; [apply Steps_emit; reflexivity | intro; apply Steps_ret].
    + intro e. apply Steps_bind; [|intro; apply Steps_ret].
      intro s. apply R_pageError.
Qed.

End Frame.

(* ------------------------------------------------------------------ *)
(** ** Extraction of one item (static path) *)

Section Extraction.

Variable w : World.

Lemma extractAnimeData_total (el : CheerioElement) (url : string) :
  Total (extractAnimeData w el url).
Proof.
  apply Total_tryCatch. intro e.
  apply Total_bind; [apply Total_emit | intros _; apply Total_ret].
Qed.

Lemma eachEpisode_total (url : string) (els : list CheerioElement) :
  forall index acc, Total (eachEpisode w url index els acc).
Proof.
  induction els as [|el els IH]; intros index acc; simpl.
  - apply Total_ret.
  - apply Total_bind; [|intro a; apply IH].
    apply Total_tryCatch. intro e.
    apply Total_bind; [apply Total_emit | intros _; apply Total_ret].
Qed.

(** What [extractAnimeData] answers, read off the four reads of the
    element. *)
Lemma extractAnimeData_cases (el : CheerioElement) (url : string) (s : State) :
  exists r s',
    extractAnimeData w el url s = (Ok r, s') /\
    match ce_title el, ce_imageSrc el, ce_status el, ce_time el with
    | Ok titleText, Ok src, Ok statusText, Ok _ =>
        let imageUrl0 := match src with Some u => u | None => "" end in
        if Js.truthy (Js.trim titleText) && Js.truthy imageUrl0 then
          r = Some (mkRecord (Js.trim titleText) imageUrl0 (Js.trim statusText)
                      url (w_clock w (st_tick s)))
        else r = None
    | _, _, _, _ => r = None
    end.
Proof.
  destruct el as [t i st tm].
  unfold extractAnimeData, extractAnimeDataBody, tryCatch, bind, liftResult.
  simpl.
  destruct t as [t|e]; [|eexists; eexists; split; reflexivity].
  destruct i as [i|e]; [|eexists; eexists; split; reflexivity].
  destruct st as [st|e]; [|eexists; eexists; split; reflexivity].
  destruct tm as [tm|e]; [|eexists; eexists; split; reflexivity].
  destruct (Js.truthy (Js.trim t)) eqn:Et; simpl;
    [|eexists; eexists; split; reflexivity].
  destruct i as [u|]; simpl.
  - unfold Js.orElse. destruct (Js.truthy u) eqn:Eu; simpl.
    + rewrite Eu. simpl. eexists. eexists. split; reflexivity.
    + eexists. eexists. split; reflexivity.
  - eexists. eexists. split; reflexivity.
Qed.

End Extraction.

(** *** The three state relations are preorders that events respect *)

Lemma sameBrowser_refl s : sameBrowser s s.
Proof. reflexivity. Qed.

Lemma sameBrowser_trans s1 s2 s3 :
  sameBrowser s1 s2 -> sameBrowser s2 s3 -> sameBrowser s1 s3.
Proof. unfold sameBrowser. congruence. Qed.

Lemma samePages_refl s : samePages s s.
Proof. reflexivity. Qed.

Lemma samePages_trans s1 s2 s3 :
  samePages s1 s2 -> samePages s2 s3 -> samePages s1 s3.
Proof. unfold samePages. congruence. Qed.

Lemma pageErrors_app (a b : list Event) :
  pageErrors (a ++ b) = (pageErrors a ++ pageErrors b)%list.
Proof. apply filter_app. Qed.

Lemma quietly_refl s : quietly s s.
Proof. exists []. split; [symmetry; apply app_nil_r | reflexivity]. Qed.

Lemma quietly_trans s1 s2 s3 : quietly s1 s2 -> quietly s2 s3 -> quietly s1 s3.
Proof.
  intros (t1 & E1 & Q1) (t2 & E2 & Q2). exists (t1 ++ t2)%list. split.
  - rewrite E2, E1. symmetry. apply app_assoc.
  - rewrite pageErrors_app, Q1, Q2. reflexivity.
Qed.

Lemma quietly_event s e : isPageErrorLog e = false -> quietly s (withEvent s e).
Proof.
  intro H. exists [e]. split; [reflexivity|].
  unfold pageErrors. simpl. rewrite H. reflexivity.
Qed.

Lemma quietly_same_trace s s' : st_trace s' = st_trace s -> quietly s s'.
Proof.
  intro H. exists []. split; [rewrite H; symmetry; apply app_nil_r | reflexivity].
Qed.

(** A page attempt, with its retries, never writes a page-error entry. *)
Lemma scrapeAnimePage_quiet (w : World) (config : ScrapingConfig) (page : Z) :
  Steps quietly (scrapeAnimePage w config page).
Proof.
  apply Steps_scrapeAnimePage.
  - exact quietly_refl.
  - exact quietly_trans.
  - intro s. apply quietly_same_trace. reflexivity.
  - exact quietly_event.
  - intros s g. apply quietly_same_trace. reflexivity.
Qed.

(** Nothing in a run touches [this.browser]. *)
Lemma scrapeAnimePages_sameBrowser
      (w : World) (config : ScrapingConfig) (pages : list Z) :
  Steps sameBrowser (scrapeAnimePages w config pages).
Proof.
  apply Steps_scrapeAnimePages.
  - exact sameBrowser_refl.
  - exact sameBrowser_trans.
  - intro s. reflexivity.
  - intros s e _. reflexivity.
  - intros s g. reflexivity.
  - intros s page e. reflexivity.
Qed.

Lemma renderBody_samePages (w : World) (url : string) (r : Rendering) :
  Steps samePages (renderBody w url r).
Proof.
  apply Steps_renderBody.
  - exact samePages_refl.
  - exact samePages_trans.
  - intro s. reflexivity.
  - intros s e _. reflexivity.
Qed.

Lemma renderBody_quiet (w : World) (url : string) (r : Rendering) :
  Steps quietly (renderBody w url r).
Proof.
  apply Steps_renderBody.
  - exact quietly_refl.
  - exact quietly_trans.
  - intro s. apply quietly_same_trace. reflexivity.
  - exact quietly_event.
Qed.

Lemma removeTab_head (id : nat) (tabs : list nat) :
  removeTab id (id :: tabs) = tabs.
Proof. simpl. rewrite Nat.eqb_refl. reflexivity. Qed.

(** [try { body } finally { page.close() }]: whatever the body does, the
    tab is closed last. *)
Lemma tryFinally_closePage {A} (body : M A) (id : nat) (s : State) :
  Steps samePages body -> Steps quietly body ->
  st_pages (snd (tryFinally body (closePage id) s)) = removeTab id (st_pages s)
  /\ exists mid,
       st_trace (snd (tryFinally body (closePage id) s)) =
       (st_trace s ++ mid ++ [ClosePage id])%list.
Proof.
  intros Hp Hq. specialize (Hp s). destruct (Hq s) as (mid & Et & _).
  unfold tryFinally. destruct (body s) as [r s1]. simpl in *.
  split.
  - rewrite Hp. reflexivity.
  - exists mid. rewrite Et. symmetry. apply app_assoc.
Qed.

(* ------------------------------------------------------------------ *)
(** ** Per-item extraction *)

(** C6: [extractAnimeData] never throws.  When one of the four reads of
    the element raises, or the trimmed title text or the image [src] is
    missing or empty, it answers nothing; otherwise it answers a record
    whose title is the trimmed title text and whose image URL is the
    [src] attribute.  The loop over the elements of a page never throws
    either. *)
Theorem extractAnimeData_drops_or_copies (w : World) :
  (forall el url s,
      exists r s',
        extractAnimeData w el url s = (Ok r, s') /\
        match ce_title el, ce_imageSrc el, ce_status el, ce_time el with
        | Ok titleText, Ok src, Ok _, Ok _ =>
            let imageUrl0 := match src with Some u => u | None => "" end in
            if Js.truthy (Js.trim titleText) && Js.truthy imageUrl0 then
              exists record,
                r = Some record /\
                title record = Js.trim titleText /\
                imageUrl record = imageUrl0
            else r = None
        | _, _, _, _ => r = None
        end) /\
  (forall url els index acc, Total (eachEpisode w url index els acc)).
Proof.
  split; [|intros; apply eachEpisode_total].
  intros el url s.
  destruct (extractAnimeData_cases w el url s) as (r & s' & E & H).
  exists r, s'. split; [exact E|].
  destruct (ce_title el) as [t|]; [|exact H].
  destruct (ce_imageSrc el) as [i|]; [|exact H].
  destruct (ce_status el) as [st|]; [|exact H].
  destruct (ce_time el) as [tm|]; [|exact H].
  cbv zeta in *.
  destruct (Js.truthy (Js.trim t) && Js.truthy match i with Some u => u | None => "" end);
    [|exact H].
  eexists. split; [exact H|]. split; reflexivity.
Qed.

Lemma extractAnimeData_some (w : World) (el : CheerioElement) (url : string)
      (s s' : State) (r : ScrapedAnimeData) :
  extractAnimeData w el url s = (Ok (Some r), s') ->
  fixedFields url r /\ nonEmptyFields r.
Proof.
  intro E. destruct (extractAnimeData_cases w el url s) as (r0 & s0 & E0 & H).
  rewrite E in E0. inversion E0. subst r0 s0. clear E0.
  destruct (ce_title el) as [t|]; [|discriminate H].
  destruct (ce_imageSrc el) as [i|]; [|discriminate H].
  destruct (ce_status el) as [st|]; [|discriminate H].
  destruct (ce_time el) as [tm|]; [|discriminate H].
  cbv zeta in H.
  destruct (Js.truthy (Js.trim t) && Js.truthy match i with Some u => u | None => "" end)
    eqn:Et; [|discriminate H].
  inversion H. subst r. apply andb_prop in Et. destruct Et as [E1 E2].
  split; [repeat split|]. split; simpl; assumption.
Qed.

Lemma eachEpisode_produces (w : World) (url : string)
      (els : list CheerioElement) :
  forall index acc,
    Forall (fun r => fixedFields url r /\ nonEmptyFields r) acc ->
    Produces (Forall (fun r => fixedFields url r /\ nonEmptyFields r))
      (eachEpisode w url index els acc).
Proof.
  induction els as [|el els IH]; intros index acc Hacc; simpl.
  - apply Produces_ret. exact Hacc.
  - eapply Produces_bind; [|intros a Ha; apply IH; exact Ha].
    apply Produces_tryCatch.
    + intros s a s' E. unfold bind in E.
      destruct (extractAnimeData w el url s) as [[[r|]|e] s1] eqn:Ex;
        try discriminate E; inversion E; subst; [|exact Hacc].
      apply Forall_app. split; [exact Hacc|].
      constructor; [|constructor].
      exact (extractAnimeData_some _ _ _ _ _ _ Ex).
    + intro e. eapply Produces_bind; [apply Produces_any|].
      intros _ _. apply Produces_ret. exact Hacc.
Qed.

(** The static path: every record has the fixed fields and a non-empty
    title and image URL. *)
Lemma scrapeWithCheerio_produces (w : World) (url : string) :
  Produces (Forall (fun r => fixedFields url r /\ nonEmptyFields r))
    (scrapeWithCheerio w url).
Proof.
  eapply Produces_bind; [apply Produces_any|].
  intros els _. apply eachEpisode_produces. constructor.
Qed.

Lemma mapItems_produces (w : World) (url : string) (items : list RawItem) :
  Produces (Forall (fixedFields url)) (mapItems w url items).
Proof.
  induction items as [|it items IH]; simpl.
  - apply Produces_ret. constructor.
  - eapply Produces_bind; [apply Produces_any|]. intros now _.
    eapply Produces_bind; [exact IH|]. intros rs Hrs.
    apply Produces_ret. constructor; [repeat split | exact Hrs].
Qed.

(** The rendered path: every record has the fixed fields. *)
Lemma scrapeWithPuppeteer_produces (w : World) (url : string) :
  Produces (Forall (fixedFields url)) (scrapeWithPuppeteer w url).
Proof.
  eapply Produces_bind; [apply Produces_any|]. intros [b|] _;
    [|apply Produces_throw].
  eapply Produces_bind; [apply Produces_any|]. intros t _.
  eapply Produces_bind; [apply Produces_any|]. intros page _.
  apply Produces_tryFinally. unfold renderBody.
  repeat (eapply Produces_bind; [apply Produces_any|]; intros ? _).
  apply mapItems_produces.
Qed.

Lemma retryFrom_produces (w : World) {A} (P : A -> Prop) (op : M A) :
  Produces P op -> forall n attempt, Produces P (retryFrom w attempt n op).
Proof.
  intro Hop. induction n as [|n IH]; intro attempt; simpl;
    apply Produces_tryCatch; try exact Hop; intro e.
  - apply Produces_throw.
  - eapply Produces_bind; [apply Produces_any|]. intros _ _. apply IH.
Qed.

Lemma scrapeAnimePage_produces (w : World) (config : ScrapingConfig) (page : Z) :
  Produces (Forall (fixedFields (pageUrl page)))
    (scrapeAnimePage w config page).
Proof.
  unfold scrapeAnimePage, retryExecute. apply retryFrom_produces.
  unfold scrapeAttempt. destruct (usePuppeteer config).
  - apply scrapeWithPuppeteer_produces.
  - intros s a s' E.
    eapply Forall_impl; [|exact (scrapeWithCheerio_produces _ _ _ _ _ E)].
    intros r [H _]. exact H.
Qed.

Lemma scrapeLoop_produces (w : World) (config : ScrapingConfig)
      (Q : ScrapedAnimeData -> Prop) (pages : list Z) :
  (forall p r, In p pages -> fixedFields (pageUrl p) r -> Q r) ->
  forall acc, Forall Q acc ->
    Produces (Forall Q) (scrapeLoop w config pages acc).
Proof.
  induction pages as [|p pages IH]; intros HQ acc Hacc; simpl.
  - apply Produces_ret. exact Hacc.
  - eapply Produces_bind;
      [|intros a Ha; apply IH; [intros q r Hq; apply HQ; right; exact Hq
                               | exact Ha]].
    apply Produces_tryCatch.
    + eapply Produces_bind; [apply Produces_any|]. intros _ _.
      eapply Produces_bind; [apply scrapeAnimePage_produces|].
      intros d Hd. eapply Produces_bind; [apply Produces_any|]. intros _ _.
      apply Produces_ret. apply Forall_app. split; [exact Hacc|].
      eapply Forall_impl; [|exact Hd]. intros r Hr.
      apply (HQ p r); [left; reflexivity | exact Hr].
    + intro e. eapply Produces_bind; [apply Produces_any|]. intros _ _.
      apply Produces_ret. exact Hacc.
Qed.

(** Every record a run returns has the fixed fields for one of the pages
    of the run. *)
Lemma scrapeAnimePages_some_page
        (w : World) (config : ScrapingConfig) (pages : list Z)
        (s s' : State) (records : list ScrapedAnimeData) :
  scrapeAnimePages w config pages s = (Ok records, s') ->
  Forall (fun r => exists page, In page pages /\ fixedFields (pageUrl page) r)
    records.
Proof.
  intro E. unfold scrapeAnimePages in E.
  refine (scrapeLoop_produces w config _ pages _ [] _ _ _ _ E).
  - intros p r Hp Hr. exists p. split; assumption.
  - constructor.
Qed.

(** C2: on the rendered path a listing whose only episode has a blank
    title link and an image without [src] yields a record with the empty
    title and the empty image URL; the test of [extractAnimeData] for
    empty fields is missing there. *)
Theorem scrapeWithPuppeteer_keeps_blank_item :
  exists r s',
    scrapeWithPuppeteer worldBlankEpisode (pageUrl 1) launchedState
    = (Ok [r], s') /\
    title r = "" /\ imageUrl r = "".
Proof.
  eexists. eexists. split; [vm_compute; reflexivity|]. split; reflexivity.
Qed.

(* ------------------------------------------------------------------ *)
(** ** The renderer: tabs and the browser *)

Lemma scrapeWithPuppeteer_opened (w : World) (url : string) (s : State) (b : nat) :
  st_browser s = Some b ->
  r_newPage (w_render w (st_tick s) url) = None ->
  scrapeWithPuppeteer w url s =
  tryFinally (renderBody w url (w_render w (st_tick s) url))
    (closePage (st_tick s)) (tabOpened s).
Proof.
  intros Eb En.
  unfold scrapeWithPuppeteer, bind at 1, getBrowser. rewrite Eb.
  unfold bind at 1, tick. unfold bind at 1, newPage, bind at 1, step.
  cbn [st_tick]. rewrite En. reflexivity.
Qed.

Lemma scrapeWithPuppeteer_refused (w : World) (url : string) (s : State)
      (b : nat) (e : JsError) :
  st_browser s = Some b ->
  r_newPage (w_render w (st_tick s) url) = Some e ->
  scrapeWithPuppeteer w url s = (Throw e, snd (tick s)).
Proof.
  intros Eb En.
  unfold scrapeWithPuppeteer, bind at 1, getBrowser. rewrite Eb.
  unfold bind at 1, tick. unfold bind at 1, newPage, bind at 1, step.
  cbn [st_tick]. rewrite En. reflexivity.
Qed.

Lemma scrapeWithPuppeteer_uninitialized (w : World) (url : string) (s : State) :
  st_browser s = None ->
  scrapeWithPuppeteer w url s = (Throw (Error "Browser not initialized"), s).
Proof.
  intros Eb. unfold scrapeWithPuppeteer, bind, getBrowser. rewrite Eb.
  reflexivity.
Qed.

(** C8: a rendered fetch leaves the set of open tabs as it found it,
    whether it returns or throws, and when a tab was opened the closing
    of that tab is the last thing the fetch does. *)
Theorem scrapeWithPuppeteer_releases_tab (w : World) (url : string) (s : State) :
  st_pages (snd (scrapeWithPuppeteer w url s)) = st_pages s /\
  (forall b,
      st_browser s = Some b ->
      r_newPage (w_render w (st_tick s) url) = None ->
      exists mid,
        st_trace (snd (scrapeWithPuppeteer w url s)) =
        (st_trace s ++ NewPage (st_tick s) :: mid ++ [ClosePage (st_tick s)])%list).
Proof.
  assert (forall b, st_browser s = Some b ->
                    r_newPage (w_render w (st_tick s) url) = None ->
                    st_pages (snd (scrapeWithPuppeteer w url s)) = st_pages s /\
                    exists mid,
                      st_trace (snd (scrapeWithPuppeteer w url s)) =
                      (st_trace s ++ NewPage (st_tick s) :: mid
                         ++ [ClosePage (st_tick s)])%list) as Hopen.
  { intros b Eb En. rewrite (scrapeWithPuppeteer_opened w url s b Eb En).
    destruct (tryFinally_closePage
                (renderBody w url (w_render w (st_tick s) url))
                (st_tick s) (tabOpened s)
                (renderBody_samePages w url _) (renderBody_quiet w url _))
      as (Hp & mid & Ht).
    split.
    - rewrite Hp. apply removeTab_head.
    - exists mid. rewrite Ht. unfold tabOpened. cbn [st_trace].
      rewrite <- app_assoc. reflexivity. }
  split; [|intros b Eb En; exact (proj2 (Hopen b Eb En))].
  destruct (st_browser s) as [b|] eqn:Eb.
  - destruct (r_newPage (w_render w (st_tick s) url)) as [e|] eqn:En.
    + rewrite (scrapeWithPuppeteer_refused w url s b e Eb En). reflexivity.
    + exact (proj1 (Hopen b eq_refl eq_refl)).
  - rewrite (scrapeWithPuppeteer_uninitialized w url s Eb). reflexivity.
Qed.

Lemma scrapeWithPuppeteer_releases_tab_witness :
  st_pages (snd (scrapeWithPuppeteer worldPlainEpisode (pageUrl 1) launchedState))
  = [] /\
  exists mid,
    st_trace (snd (scrapeWithPuppeteer worldPlainEpisode (pageUrl 1) launchedState))
    = ([Launch] ++ NewPage 1 :: mid ++ [ClosePage 1])%list.
Proof.
  split.
  - exact (proj1 (scrapeWithPuppeteer_releases_tab
                    worldPlainEpisode (pageUrl 1) launchedState)).
  - apply (proj2 (scrapeWithPuppeteer_releases_tab
                    worldPlainEpisode (pageUrl 1) launchedState) 0%nat);
      reflexivity.
Defined.

(** C5, as stated, fails: on a fresh service set up for rendered fetches,
    with a renderer that would serve the page, the first rendered fetch
    does not go through and no browser is created. *)
Lemma first_rendered_fetch_does_not_launch :
  ~ FirstFetchLaunches worldPlainEpisode (pageUrl 1) /\
  scrapeAnimePages worldPlainEpisode renderedConfig [1]%Z initialState =
  (Ok [],
   {| st_browser := None; st_pages := []; st_tick := 0;
      st_trace := [pageStartLog 1;
                   pageErrorLog 1 (Error "Browser not initialized")] |}).
Proof.
  split; [|reflexivity].
  intros (records & s' & E & _). vm_compute in E. discriminate E.
Qed.

(** C5, amended: the browser is created by [initializeBrowser] only.  A
    rendered fetch on a service without browser fails with "Browser not
    initialized" and changes nothing; a run never sets [this.browser];
    [initializeBrowser] launches the browser when rendered fetches are
    configured and none is running. *)
Theorem browser_only_from_initializeBrowser (w : World) (config : ScrapingConfig) :
  (forall url s,
      st_browser s = None ->
      scrapeWithPuppeteer w url s = (Throw (Error "Browser not initialized"), s))
  /\
  (forall pages s,
      st_browser (snd (scrapeAnimePages w config pages s)) = st_browser s)
  /\
  (forall s,
      usePuppeteer config = true ->
      st_browser s = None ->
      w_launch w (st_tick s) = None ->
      st_browser (snd (initializeBrowser w config s)) = Some (st_tick s)).
Proof.
  split; [|split].
  - intros url s. apply scrapeWithPuppeteer_uninitialized.
  - intros pages s. apply (scrapeAnimePages_sameBrowser w config pages s).
  - intros s Hu Hb Hl. unfold initializeBrowser, bind, getBrowser, tick.
    rewrite Hu, Hb. cbn [st_tick]. rewrite Hl. reflexivity.
Qed.

Lemma browser_only_from_initializeBrowser_witness :
  scrapeWithPuppeteer worldPlainEpisode (pageUrl 1) initialState
  = (Throw (Error "Browser not initialized"), initialState)
  /\
  st_browser (snd (scrapeAnimePages worldPlainEpisode renderedConfig [1; 2]%Z
                     initialState)) = None
  /\
  st_browser (snd (initializeBrowser worldPlainEpisode renderedConfig initialState))
  = Some 0%nat.
Proof.
  destruct (browser_only_from_initializeBrowser worldPlainEpisode renderedConfig)
    as (H1 & H2 & H3).
  split; [|split].
  - apply H1. reflexivity.
  - apply (H2 [1; 2]%Z initialState).
  - apply (H3 initialState); reflexivity.
Defined.

(* ------------------------------------------------------------------ *)
(** ** The page loop *)

Lemma scrapePageInto_step (w : World) (config : ScrapingConfig)
      (results : list ScrapedAnimeData) (page : Z) (s : State) :
  scrapePageInto w config results page s =
  match scrapeAnimePage w config page (withEvent s (pageStartLog page)) with
  | (Ok pageData, s1) =>
      (Ok (results ++ pageData)%list, withEvent s1 (Sleep (delay config)))
  | (Throw e, s1) => (Ok results, withEvent s1 (pageErrorLog page e))
  end.
Proof.
  unfold scrapePageInto, tryCatch, bind at 1, loggerInfo, emit at 1.
  unfold bind at 1, pageStartLog.
  destruct (scrapeAnimePage w config page _) as [[d|e] s1]; reflexivity.
Qed.

Lemma scrapePageInto_total (w : World) (config : ScrapingConfig)
      (results : list ScrapedAnimeData) (page : Z) :
  Total (scrapePageInto w config results page).
Proof.
  intro s. rewrite scrapePageInto_step.
  destruct (scrapeAnimePage w config page _) as [[d|e] s1];
    eexists; eexists; reflexivity.
Qed.

(** A run never throws. *)
Lemma scrapeLoop_total (w : World) (config : ScrapingConfig) (pages : list Z) :
  forall acc, Total (scrapeLoop w config pages acc).
Proof.
  induction pages as [|p pages IH]; intro acc; simpl.
  - apply Total_ret.
  - apply Total_bind; [apply scrapePageInto_total | intro a; apply IH].
Qed.

Lemma scrapeLoop_app (w : World) (config : ScrapingConfig)
      (before after : list Z) :
  forall acc s results s1,
    scrapeLoop w config before acc s = (Ok results, s1) ->
    scrapeLoop w config (before ++ after) acc s =
    scrapeLoop w config after results s1.
Proof.
  induction before as [|p before IH]; intros acc s results s1 E; simpl in *.
  - inversion E. reflexivity.
  - unfold bind in *.
    destruct (scrapePageInto w config acc p s) as [[a|e] s0];
      [|discriminate E].
    apply IH. exact E.
Qed.

Lemma scrapeLoop_cons (w : World) (config : ScrapingConfig)
      (page : Z) (rest : list Z) (acc : list ScrapedAnimeData) (s : State) :
  scrapeLoop w config (page :: rest) acc s =
  match scrapeAnimePage w config page (withEvent s (pageStartLog page)) with
  | (Ok pageData, s1) =>
      scrapeLoop w config rest (acc ++ pageData)%list
        (withEvent s1 (Sleep (delay config)))
  | (Throw e, s1) =>
      scrapeLoop w config rest acc (withEvent s1 (pageErrorLog page e))
  end.
Proof.
  simpl. unfold bind. rewrite scrapePageInto_step.
  destruct (scrapeAnimePage w config page _) as [[d|e] s1]; reflexivity.
Qed.

(** C4, as stated, fails on the pages 1, 2 when page 1 answers 404 and
    page 2 carries an item: page 2 starts right after the error entry of
    page 1, with no sleep in between, and the run ends on a sleep. *)
Lemma scrapeAnimePages_sleeps_misplaced :
  let trace :=
    st_trace (snd (scrapeAnimePages worldPage1Missing noRetryConfig [1; 2]%Z
                     initialState)) in
  ~ SleepsBeforeEachNextPage (delay noRetryConfig) trace /\
  ~ NoSleepAfterLastPage (delay noRetryConfig) trace.
Proof.
  split.
  - intro H.
    destruct (H [pageStartLog 1; HttpGet (pageUrl 1);
                 pageErrorLog 1 (AxiosError (Some 404%Z))]
                (pageStartLog 2)
                [HttpGet (pageUrl 2); Sleep 1000])
      as (pre' & E); [reflexivity | reflexivity | discriminate |].
    change [pageStartLog 1; HttpGet (pageUrl 1);
            pageErrorLog 1 (AxiosError (Some 404%Z))]
      with ([pageStartLog 1; HttpGet (pageUrl 1)]
              ++ [pageErrorLog 1 (AxiosError (Some 404%Z))])%list in E.
    apply app_inj_tail in E. destruct E as [_ E]. discriminate E.
  - intro H.
    apply (H [pageStartLog 1; HttpGet (pageUrl 1);
              pageErrorLog 1 (AxiosError (Some 404%Z));
              pageStartLog 2; HttpGet (pageUrl 2)]).
    reflexivity.
Qed.

(** C4, amended: after a page whose fetch returned, wherever the page is
    in the sequence, the loop sleeps for [config.delay] before it goes on
    with the pages after it; this holds of the last page too, where the
    run ends on that sleep. *)
Theorem scrapeAnimePages_sleeps_after_success
        (w : World) (config : ScrapingConfig)
        (before : list Z) (page : Z) (after : list Z) (s s1 s2 : State)
        (results pageData : list ScrapedAnimeData) :
  scrapeAnimePages w config before s = (Ok results, s1) ->
  scrapeAnimePage w config page (withEvent s1 (pageStartLog page))
  = (Ok pageData, s2) ->
  scrapeAnimePages w config (before ++ page :: after) s =
  scrapeLoop w config after (results ++ pageData)%list
    (withEvent s2 (Sleep (delay config)))
  /\
  scrapeAnimePages w config (before ++ [page]) s =
  (Ok (results ++ pageData)%list, withEvent s2 (Sleep (delay config))).
Proof.
  intros E Ep. unfold scrapeAnimePages in *. split.
  - rewrite (scrapeLoop_app w config before (page :: after) [] s results s1 E).
    rewrite scrapeLoop_cons, Ep. reflexivity.
  - rewrite (scrapeLoop_app w config before [page] [] s results s1 E).
    rewrite scrapeLoop_cons, Ep. reflexivity.
Qed.

Lemma scrapeAnimePages_sleeps_after_success_witness :
  exists results s1 pageData s2,
    scrapeAnimePages worldPage1Missing noRetryConfig [1]%Z initialState
    = (Ok results, s1) /\
    scrapeAnimePage worldPage1Missing noRetryConfig 2
      (withEvent s1 (pageStartLog 2)) = (Ok pageData, s2) /\
    scrapeAnimePages worldPage1Missing noRetryConfig ([1%Z] ++ 2%Z :: [3%Z])%list
      initialState =
    scrapeLoop worldPage1Missing noRetryConfig [3]%Z (results ++ pageData)%list
      (withEvent s2 (Sleep 1000)) /\
    scrapeAnimePages worldPage1Missing noRetryConfig ([1%Z] ++ [2%Z])%list
      initialState =
    (Ok (results ++ pageData)%list, withEvent s2 (Sleep 1000)).
Proof.
  eexists. eexists. eexists. eexists.
  split; [vm_compute; reflexivity|]. split; [vm_compute; reflexivity|].
  eapply (scrapeAnimePages_sleeps_after_success worldPage1Missing noRetryConfig
            [1]%Z 2%Z [3]%Z initialState);
    vm_compute; reflexivity.
Defined.

(* ------------------------------------------------------------------ *)
(** ** A run with a page that is down *)

Lemma logging_trans (l1 l2 : list Event) (s1 s2 s3 : State) :
  logging l1 s1 s2 -> logging l2 s2 s3 -> logging (l1 ++ l2) s1 s3.
Proof.
  intros (t1 & E1 & Q1) (t2 & E2 & Q2). exists (t1 ++ t2)%list. split.
  - rewrite E2, E1. symmetry. apply app_assoc.
  - rewrite pageErrors_app, Q1, Q2. reflexivity.
Qed.

Lemma logging_event (s : State) (e : Event) :
  logging (pageErrors [e]) s (withEvent s e).
Proof. exists [e]. split; reflexivity. Qed.

Lemma retryFrom_first_try (w : World) {A} (op : M A) (a : A) (s s1 : State) :
  op s = (Ok a, s1) ->
  forall n attempt, retryFrom w attempt n op s = (Ok a, s1).
Proof.
  intros E n attempt. destruct n; simpl; unfold tryCatch; rewrite E;
    reflexivity.
Qed.

Lemma retryFrom_exhausted (w : World) {A} (op : M A) (e : JsError) :
  (forall s, fst (op s) = Throw e) ->
  forall n attempt s, fst (retryFrom w attempt n op s) = Throw e.
Proof.
  intros Hop. induction n as [|n IH]; intros attempt s; simpl;
    unfold tryCatch; specialize (Hop s);
    destruct (op s) as [[a|e0] s1]; simpl in Hop; try discriminate Hop;
    inversion Hop; subst e0.
  - reflexivity.
  - unfold bind, emit. apply IH.
Qed.

Lemma axiosGet_ok (w : World) (url : string) (s : State)
      (els : list CheerioElement) :
  w_http w (st_tick s) url = HttpOk els ->
  axiosGet w url s = (Ok els, withEvent (snd (tick s)) (HttpGet url)).
Proof.
  intro E. unfold axiosGet, bind, tick, emit. cbn [st_tick]. rewrite E.
  reflexivity.
Qed.

Lemma axiosGet_fail (w : World) (url : string) (st : option Z) :
  (forall t, w_http w t url = HttpFail st) ->
  forall s, fst (axiosGet w url s) = Throw (AxiosError st).
Proof.
  intros E s. unfold axiosGet, bind, tick, emit. cbn [st_tick]. rewrite E.
  destruct (statusIs st 429); reflexivity.
Qed.

Lemma scrapeWithCheerio_fail (w : World) (url : string) (st : option Z) :
  (forall t, w_http w t url = HttpFail st) ->
  forall s, fst (scrapeWithCheerio w url s) = Throw (AxiosError st).
Proof.
  intros E s. unfold scrapeWithCheerio, bind.
  pose proof (axiosGet_fail w url st E s) as H.
  destruct (axiosGet w url s) as [[a|e] s1]; simpl in H;
    [discriminate H | inversion H; reflexivity].
Qed.

Lemma extractAnimeData_extractable (w : World) (el : CheerioElement)
      (url titleText src : string) (s : State) :
  extractable el titleText src ->
  exists r s',
    extractAnimeData w el url s = (Ok (Some r), s') /\
    summary r = (Js.trim titleText, src, url).
Proof.
  intros (Ht & Hi & (st & Hs) & (tm & Hm) & Tt & Ts).
  destruct (extractAnimeData_cases w el url s) as (r & s' & E & H).
  rewrite Ht, Hi, Hs, Hm in H. cbv zeta in H. rewrite Tt, Ts in H.
  simpl in H. subst r. eexists. eexists. split; [exact E | reflexivity].
Qed.

Lemma eachEpisode_cons_some (w : World) (url : string) (index : nat)
      (el : CheerioElement) (els : list CheerioElement)
      (acc : list ScrapedAnimeData) (r : ScrapedAnimeData) (s s1 : State) :
  extractAnimeData w el url s = (Ok (Some r), s1) ->
  eachEpisode w url index (el :: els) acc s =
  eachEpisode w url (S index) els (acc ++ [r])%list s1.
Proof.
  intro E. simpl. unfold bind at 1, tryCatch, bind at 1. rewrite E.
  reflexivity.
Qed.

(** A listing with two extractable items gives their two records, in the
    order of the page. *)
Lemma scrapeWithCheerio_two (w : World) (url : string) (s : State)
      (ea eb : CheerioElement) (ta ua tb ub : string) :
  (forall t, w_http w t url = HttpOk [ea; eb]) ->
  extractable ea ta ua -> extractable eb tb ub ->
  exists rs s',
    scrapeWithCheerio w url s = (Ok rs, s') /\
    map summary rs = [(Js.trim ta, ua, url); (Js.trim tb, ub, url)].
Proof.
  intros Hw Ha Hb. unfold scrapeWithCheerio, bind at 1.
  rewrite (axiosGet_ok w url s _ (Hw _)).
  destruct (extractAnimeData_extractable w ea url ta ua
              (withEvent (snd (tick s)) (HttpGet url)) Ha)
    as (ra & sa & Ea & Sa).
  destruct (extractAnimeData_extractable w eb url tb ub sa Hb)
    as (rb & sb & Eb & Sb).
  rewrite (eachEpisode_cons_some _ _ _ _ _ _ _ _ _ Ea).
  rewrite (eachEpisode_cons_some _ _ _ _ _ _ _ _ _ Eb).
  exists [ra; rb], sb. split; [reflexivity|]. simpl. rewrite Sa, Sb.
  reflexivity.
Qed.

(** Nothing in a page attempt, with its retries, touches [this.browser]. *)
Lemma scrapeAttempt_sameBrowser (w : World) (config : ScrapingConfig)
      (url : string) :
  Steps sameBrowser (scrapeAttempt w config url).
Proof.
  apply Steps_scrapeAttempt.
  - exact sameBrowser_refl.
  - exact sameBrowser_trans.
  - intro s. reflexivity.
  - intros s e _. reflexivity.
  - intros s g. reflexivity.
Qed.

Lemma scrapeAnimePage_sameBrowser (w : World) (config : ScrapingConfig)
      (page : Z) :
  Steps sameBrowser (scrapeAnimePage w config page).
Proof.
  apply Steps_scrapeAnimePage.
  - exact sameBrowser_refl.
  - exact sameBrowser_trans.
  - intro s. reflexivity.
  - intros s e _. reflexivity.
  - intros s g. reflexivity.
Qed.

(** When every attempt throws, the retries are used up and the retry
    service throws the error of the last attempt. *)
Lemma retryFrom_always_fails (w : World) {A} (op : M A) (browser : option nat) :
  Steps sameBrowser op ->
  (forall s, st_browser s = browser -> exists e, fst (op s) = Throw e) ->
  forall n attempt s,
    st_browser s = browser ->
    exists e, fst (retryFrom w attempt n op s) = Throw e.
Proof.
  intros Hsame Hop. induction n as [|n IH]; intros attempt s Hb; simpl;
    unfold tryCatch; destruct (Hop s Hb) as (e & He);
    pose proof (Hsame s) as Hs1;
    destruct (op s) as [[a|e0] s1]; simpl in He, Hs1; try discriminate He.
  - exists e0. reflexivity.
  - unfold bind, emit. apply IH. unfold sameBrowser in Hs1.
    cbn [st_browser withEvent]. congruence.
Qed.

Lemma scrapeAnimePage_yields (w : World) (config : ScrapingConfig) (page : Z)
      (browser : option nat) (expected : list (string * string * string))
      (s : State) :
  AlwaysYields w config browser (pageUrl page) expected ->
  st_browser s = browser ->
  exists records s',
    scrapeAnimePage w config page s = (Ok records, s') /\
    map summary records = expected /\
    quietly s s' /\ st_browser s' = browser.
Proof.
  intros Hy Hb. destruct (Hy s Hb) as (rs & s' & E & Hs).
  assert (scrapeAnimePage w config page s = (Ok rs, s')) as Ep.
  { unfold scrapeAnimePage, retryExecute. apply retryFrom_first_try. exact E. }
  exists rs, s'. split; [exact Ep|]. split; [exact Hs|].
  pose proof (scrapeAnimePage_quiet w config page s) as Hq.
  pose proof (scrapeAnimePage_sameBrowser w config page s) as Hsb.
  rewrite Ep in Hq, Hsb. split; [exact Hq|].
  unfold sameBrowser in Hsb. simpl in Hsb. congruence.
Qed.

Lemma scrapeAnimePage_fails (w : World) (config : ScrapingConfig) (page : Z)
      (browser : option nat) (s : State) :
  AlwaysFails w config browser (pageUrl page) ->
  st_browser s = browser ->
  exists e s',
    scrapeAnimePage w config page s = (Throw e, s') /\
    quietly s s' /\ st_browser s' = browser.
Proof.
  intros Hf Hb.
  pose proof (scrapeAnimePage_quiet w config page s) as Hq.
  pose proof (scrapeAnimePage_sameBrowser w config page s) as Hsb.
  destruct (retryFrom_always_fails w (scrapeAttempt w config (pageUrl page))
              browser (scrapeAttempt_sameBrowser w config (pageUrl page))
              Hf (retries config) 0%nat s Hb) as (e & He).
  change (retryFrom w 0 (retries config) (scrapeAttempt w config (pageUrl page)) s)
    with (scrapeAnimePage w config page s) in He.
  destruct (scrapeAnimePage w config page s) as [r s']. simpl in *.
  subst r. exists e, s'. split; [reflexivity|]. split; [exact Hq|].
  unfold sameBrowser in Hsb. congruence.
Qed.

(** C1, as stated, fails: the run returns the list of records and nothing
    else.  The run over the pages 1, 2, 3 returns the same value when page
    2 is down (one failed page) and when page 2 is an empty listing (no
    failed page), so no reading of the returned value gives the failed
    pages or the number of pages that succeeded. *)
Lemma scrapeAnimePages_returns_no_summary :
  ~ (exists errorsOf pagesSucceededOf,
        ReportsRun errorsOf pagesSucceededOf
          worldPage2Down defaultConfig [1; 2; 3]%Z /\
        ReportsRun errorsOf pagesSucceededOf
          worldPage2Empty defaultConfig [1; 2; 3]%Z).
Proof.
  intros (errorsOf & pagesSucceededOf & [HA _] & [HB _]).
  assert (fst (scrapeAnimePages worldPage2Down defaultConfig [1; 2; 3]%Z
                 initialState)
          = fst (scrapeAnimePages worldPage2Empty defaultConfig [1; 2; 3]%Z
                   initialState)) as Esame by (vm_compute; reflexivity).
  cbv zeta in HA, HB. rewrite Esame in HA. rewrite HA in HB.
  vm_compute in HB. discriminate HB.
Qed.

(** C1, amended: when every attempt at page 2 fails and every attempt at
    the pages 1 and 3 returns two records, the run over the pages 1, 2, 3
    does not throw and returns the four records in page-then-item order;
    the failure of page 2 is not part of the returned value: it is
    written to the log, as the only page-error entry of the run. *)
Theorem scrapeAnimePages_page2_down
        (w : World) (config : ScrapingConfig) (s : State)
        (x1 x2 x3 x4 : string * string * string) :
  AlwaysYields w config (st_browser s) (pageUrl 1) [x1; x2] ->
  AlwaysFails w config (st_browser s) (pageUrl 2) ->
  AlwaysYields w config (st_browser s) (pageUrl 3) [x3; x4] ->
  exists records s' e,
    scrapeAnimePages w config [1; 2; 3]%Z s = (Ok records, s') /\
    map summary records = [x1; x2; x3; x4] /\
    List.length records = 4%nat /\
    logging [pageErrorLog 2 e] s s'.
Proof.
  intros H1 H2 H3.
  unfold scrapeAnimePages.
  rewrite scrapeLoop_cons.
  destruct (scrapeAnimePage_yields w config 1 _ _
              (withEvent s (pageStartLog 1)) H1 eq_refl)
    as (rs1 & sa & Ea & Sa & Qa & Ba).
  rewrite Ea. rewrite scrapeLoop_cons.
  destruct (scrapeAnimePage_fails w config 2 _
              (withEvent (withEvent sa (Sleep (delay config))) (pageStartLog 2))
              H2 Ba) as (e & sb & Eb & Qb & Bb).
  rewrite Eb. rewrite scrapeLoop_cons.
  destruct (scrapeAnimePage_yields w config 3 _ _
              (withEvent (withEvent sb (pageErrorLog 2 e)) (pageStartLog 3))
              H3 Bb) as (rs3 & sc & Ec & Sc & Qc & Bc).
  rewrite Ec. simpl scrapeLoop. unfold ret.
  assert (map summary (([] ++ rs1) ++ rs3) = [x1; x2; x3; x4]) as Hsum.
  { rewrite map_app. change ([] ++ rs1)%list with rs1.
    rewrite Sa, Sc. reflexivity. }
  assert (List.length (([] ++ rs1) ++ rs3)%list = 4%nat) as Hlen.
  { rewrite <- (length_map summary (([] ++ rs1) ++ rs3)), Hsum. reflexivity. }
  eexists. eexists. exists e. split; [reflexivity|]. split; [exact Hsum|].
  split; [exact Hlen|].
  pose proof (logging_event s (pageStartLog 1)) as L1.
  pose proof (logging_event sa (Sleep (delay config))) as L2.
  pose proof (logging_event (withEvent sa (Sleep (delay config)))
                (pageStartLog 2)) as L3.
  pose proof (logging_event sb (pageErrorLog 2 e)) as L4.
  pose proof (logging_event (withEvent sb (pageErrorLog 2 e))
                (pageStartLog 3)) as L5.
  pose proof (logging_event sc (Sleep (delay config))) as L6.
  exact (logging_trans _ _ _ _ _ L1
          (logging_trans _ _ _ _ _ Qa
            (logging_trans _ _ _ _ _ L2
              (logging_trans _ _ _ _ _ L3
                (logging_trans _ _ _ _ _ Qb
                  (logging_trans _ _ _ _ _ L4
                    (logging_trans _ _ _ _ _ L5
                      (logging_trans _ _ _ _ _ Qc L6)))))))).
Qed.

Lemma scrapeAnimePages_page2_down_witness :
  exists records s' e,
    scrapeAnimePages worldPage2Down defaultConfig [1; 2; 3]%Z initialState
    = (Ok records, s') /\
    map summary records =
    [ ("Naruto", "/img/Naruto.jpg", pageUrl 1);
      ("Bleach", "/img/Bleach.jpg", pageUrl 1);
      ("Gintama", "/img/Gintama.jpg", pageUrl 3);
      ("Monster", "/img/Monster.jpg", pageUrl 3) ] /\
    List.length records = 4%nat /\
    logging [pageErrorLog 2 e] initialState s'.
Proof.
  apply (scrapeAnimePages_page2_down worldPage2Down defaultConfig initialState).
  - intros s _.
    apply (scrapeWithCheerio_two worldPage2Down (pageUrl 1) s
             (element "Naruto" "/img/Naruto.jpg" "Ongoing")
             (element "Bleach" "/img/Bleach.jpg" "Completed")
             "Naruto" "/img/Naruto.jpg" "Bleach" "/img/Bleach.jpg");
      [intro t; reflexivity | |];
      (split; [reflexivity|]; split; [reflexivity|];
       split; [eexists; reflexivity|]; split; [eexists; reflexivity|];
       split; reflexivity).
  - intros s _. exists (AxiosError (Some 500%Z)).
    apply (scrapeWithCheerio_fail worldPage2Down (pageUrl 2) (Some 500%Z)).
    intro t. reflexivity.
  - intros s _.
    apply (scrapeWithCheerio_two worldPage2Down (pageUrl 3) s
             (element "Gintama" "/img/Gintama.jpg" "Ongoing")
             (element "Monster" "/img/Monster.jpg" "Completed")
             "Gintama" "/img/Gintama.jpg" "Monster" "/img/Monster.jpg");
      [intro t; reflexivity | |];
      (split; [reflexivity|]; split; [reflexivity|];
       split; [eexists; reflexivity|]; split; [eexists; reflexivity|];
       split; reflexivity).
Defined.

(* ------------------------------------------------------------------ *)
(** ** More on the text transforms *)

Lemma lowerUnit_idempotent (c : ascii) :
  Js.lowerUnit (Js.lowerUnit c) = Js.lowerUnit c.
Proof. destruct c as [[] [] [] [] [] [] [] []]; reflexivity. Qed.

Lemma toLowerCase_idempotent (s : string) :
  Js.toLowerCase (Js.toLowerCase s) = Js.toLowerCase s.
Proof.
  induction s as [|c s IH]; simpl; [reflexivity|].
  rewrite lowerUnit_idempotent, IH. reflexivity.
Qed.

Lemma slugUnit_lower (c : ascii) : slugUnit c = true -> Js.lowerUnit c = c.
Proof.
  destruct c as [[] [] [] [] [] [] [] []]; vm_compute; intro H;
    first [reflexivity | discriminate H].
Qed.

Lemma slugUnit_slugClass (c : ascii) : slugUnit c = true -> slugClass c = true.
Proof.
  unfold slugUnit, slugClass.
  destruct (Js.isLowerAZ c), (Js.isDigit c), (Js.isWhiteSpace c), (Js.isHyphen c);
    simpl; auto.
Qed.

Lemma toLowerCase_slug (s : string) :
  allUnits slugUnit s = true -> Js.toLowerCase s = s.
Proof.
  induction s as [|c s IH]; simpl; [reflexivity|]. intro H.
  apply andb_prop in H. destruct H as [Hc Hs].
  rewrite (slugUnit_lower c Hc), (IH Hs). reflexivity.
Qed.

Lemma keepOnly_slug (s : string) :
  allUnits slugUnit s = true -> Js.keepOnly slugClass s = s.
Proof.
  induction s as [|c s IH]; simpl; [reflexivity|]. intro H.
  apply andb_prop in H. destruct H as [Hc Hs].
  rewrite (slugUnit_slugClass c Hc), (IH Hs). reflexivity.
Qed.

Lemma collapse_space_slug (s : string) (b : bool) :
  allUnits slugUnit s = true ->
  Js.collapseFrom b Js.isWhiteSpace Js.hyphen s = s.
Proof.
  revert b. induction s as [|c s IH]; intros b H; simpl in *; [reflexivity|].
  apply andb_prop in H. destruct H as [Hc Hs].
  rewrite (slugUnit_not_space c Hc), (IH false Hs). reflexivity.
Qed.

Lemma isHyphen_eq (c : ascii) : Js.isHyphen c = true -> c = Js.hyphen.
Proof. unfold Js.isHyphen. apply Ascii.eqb_eq. Qed.

Lemma hasDoubleHyphen_tail (c : ascii) (s : string) :
  hasDoubleHyphen (String c s) = false ->
  hasDoubleHyphen s = false /\
  (Js.isHyphen c = true -> startsWithHyphen s = false).
Proof.
  destruct s as [|d s]; [intros _; split; reflexivity|].
  change (hasDoubleHyphen (String c (String d s)))
    with ((Js.isHyphen c && Js.isHyphen d) || hasDoubleHyphen (String d s)).
  intro H. apply orb_false_elim in H. destruct H as [H1 H2].
  split; [exact H2|]. intro Hc. rewrite Hc in H1. exact H1.
Qed.

Lemma collapse_hyphen_slug (s : string) :
  forall b,
    hasDoubleHyphen s = false ->
    (b = true -> startsWithHyphen s = false) ->
    Js.collapseFrom b Js.isHyphen Js.hyphen s = s.
Proof.
  induction s as [|c s IH]; intros b Hd Hb; [reflexivity|].
  destruct (hasDoubleHyphen_tail c s Hd) as [Hd' Hc]. simpl.
  destruct (Js.isHyphen c) eqn:E.
  - destruct b; [specialize (Hb eq_refl); simpl in Hb; congruence|].
    rewrite (IH true Hd' (fun _ => Hc eq_refl)).
    rewrite (isHyphen_eq c E). reflexivity.
  - rewrite (IH false Hd'); [reflexivity | discriminate].
Qed.

(** X2: a slug is its own slug. *)
Theorem generateSlug_idempotent (title : string) :
  generateSlug (generateSlug title) = generateSlug title.
Proof.
  destruct (generateSlug_units_and_runs title) as [Hu Hd].
  set (s := generateSlug title) in *.
  rewrite (generateSlug_trim_idle s).
  rewrite (toLowerCase_slug s Hu), (keepOnly_slug s Hu).
  unfold Js.replaceRuns. rewrite (collapse_space_slug s false Hu).
  apply collapse_hyphen_slug; [exact Hd | discriminate].
Qed.

Lemma collapseFrom_empty (cls : ascii -> bool) (r : ascii) (s : string) :
  Js.collapseFrom false cls r s = "" <-> s = "".
Proof.
  destruct s as [|c s]; simpl; [tauto|].
  destruct (cls c); split; discriminate.
Qed.

Lemma keepOnly_empty (p : ascii -> bool) (s : string) :
  Js.keepOnly p s = "" <-> allUnits (fun c => negb (p c)) s = true.
Proof.
  induction s as [|c s IH]; simpl; [tauto|].
  destruct (p c); simpl; [split; discriminate | exact IH].
Qed.

(** X3: the slug is empty exactly when the lower-cased title has no unit
    of [a-z0-9], no white space and no hyphen. *)
Theorem generateSlug_empty_iff (title : string) :
  generateSlug title = "" <->
  allUnits (fun c => negb (slugClass c)) (Js.toLowerCase title) = true.
Proof.
  rewrite generateSlug_trim_idle. unfold Js.replaceRuns.
  rewrite !collapseFrom_empty. apply keepOnly_empty.
Qed.

Lemma toLowerCase_length (s : string) :
  String.length (Js.toLowerCase s) = String.length s.
Proof. induction s as [|c s IH]; simpl; congruence. Qed.

Lemma keepOnly_length (p : ascii -> bool) (s : string) :
  (String.length (Js.keepOnly p s) <= String.length s)%nat.
Proof. induction s as [|c s IH]; simpl; [lia|]. destruct (p c); simpl; lia. Qed.

Lemma collapseFrom_length (cls : ascii -> bool) (r : ascii) (s : string) :
  forall b,
    (String.length (Js.collapseFrom b cls r s) <= String.length s)%nat.
Proof.
  induction s as [|c s IH]; intro b; simpl; [lia|].
  destruct (cls c); [destruct b|]; simpl;
    try (specialize (IH true); lia); specialize (IH false); lia.
Qed.

(** X4: a slug is never longer than its title. *)
Theorem generateSlug_length (title : string) :
  (String.length (generateSlug title) <= String.length title)%nat.
Proof.
  rewrite generateSlug_trim_idle. unfold Js.replaceRuns.
  pose proof (collapseFrom_length Js.isHyphen Js.hyphen
                (Js.collapseFrom false Js.isWhiteSpace Js.hyphen
                   (Js.keepOnly slugClass (Js.toLowerCase title))) false).
  pose proof (collapseFrom_length Js.isWhiteSpace Js.hyphen
                (Js.keepOnly slugClass (Js.toLowerCase title)) false).
  pose proof (keepOnly_length slugClass (Js.toLowerCase title)).
  pose proof (toLowerCase_length title). lia.
Qed.

Lemma parseStatus_values (text : string) : In (parseStatus text) statusValues.
Proof.
  unfold parseStatus, statusValues.
  destruct (_ || _); [simpl; tauto|].
  destruct (_ || _); [simpl; tauto|].
  destruct (_ || _); simpl; tauto.
Qed.

(** X5: the status is always one of "ongoing", "completed", "upcoming",
    and normalising a normalised status changes nothing. *)
Theorem parseStatus_range (text : string) :
  In (parseStatus text) statusValues /\
  parseStatus (parseStatus text) = parseStatus text.
Proof.
  pose proof (parseStatus_values text) as H. split; [exact H|].
  destruct H as [<- | [<- | [<- | []]]]; reflexivity.
Qed.

(** X6: lower-casing the input beforehand changes neither the status nor
    the slug. *)
Theorem lowercase_input_invariant (text : string) :
  parseStatus (Js.toLowerCase text) = parseStatus text /\
  generateSlug (Js.toLowerCase text) = generateSlug text.
Proof.
  unfold parseStatus, generateSlug. rewrite toLowerCase_idempotent.
  split; reflexivity.
Qed.

(** X7: whatever status text was scraped, the card shows its status with
    one of the three labels and never with the fallback colour. *)
Theorem card_recognises_parsed_status (text : string) :
  getStatusColor (parseStatus text) <> "default" /\
  In (getStatusText (parseStatus text)) ["Ongoing"; "Completed"; "Upcoming"].
Proof.
  destruct (parseStatus_values text) as [<- | [<- | [<- | []]]];
    (split; [discriminate | simpl; tauto]).
Qed.

(** X1: for every title the slug has only units of [a-z0-9-] and no two
    hyphens in a row. *)
Theorem generateSlug_shape (title : string) :
  allUnits slugUnit (generateSlug title) = true /\
  hasDoubleHyphen (generateSlug title) = false.
Proof. exact (generateSlug_units_and_runs title). Qed.

(* ------------------------------------------------------------------ *)
(** ** The static fetch, exactly *)

Lemma state_eq (s s' : State) :
  st_browser s = st_browser s' -> st_pages s = st_pages s' ->
  st_tick s = st_tick s' -> st_trace s = st_trace s' -> s = s'.
Proof. destruct s, s'. simpl. intros -> -> -> ->. reflexivity. Qed.

Lemma extractAnimeData_exact (w : World) (el : CheerioElement) (url : string)
      (s : State) :
  extractAnimeData w el url s =
  match readError el with
  | Some e => (Ok None, withEvent s (extractErrorLog e))
  | None =>
      match itemOf el with
      | Some (t, u, st) =>
          (Ok (Some (mkRecord t u st url (w_clock w (st_tick s)))),
           snd (tick s))
      | None => (Ok None, s)
      end
  end.
Proof.
  destruct el as [t i st tm].
  unfold extractAnimeData, extractAnimeDataBody, tryCatch, bind, liftResult,
    readError, itemOf.
  simpl.
  destruct t as [t|e]; [|reflexivity].
  destruct i as [i|e]; [|reflexivity].
  destruct st as [st|e]; [|reflexivity].
  destruct tm as [tm|e]; [|reflexivity].
  destruct (Js.truthy (Js.trim t)) eqn:Et; simpl.
  - destruct i as [u|]; simpl; [|reflexivity].
    unfold Js.orElse. destruct (Js.truthy u) eqn:Eu; simpl;
      [rewrite Eu|]; reflexivity.
  - destruct i as [u|]; reflexivity.
Qed.

Lemma eachEpisode_step (w : World) (url : string) (index : nat)
      (el : CheerioElement) (els : list CheerioElement)
      (acc : list ScrapedAnimeData) (s : State) :
  eachEpisode w url index (el :: els) acc s =
  match extractAnimeData w el url s with
  | (Ok (Some a), s1) => eachEpisode w url (S index) els (acc ++ [a])%list s1
  | (Ok None, s1) => eachEpisode w url (S index) els acc s1
  | (Throw e, s1) => (Throw e, s1)
  end.
Proof.
  destruct (extractAnimeData_total w el url s) as (a & s1 & E).
  simpl. unfold bind at 1, tryCatch, bind at 1. rewrite E.
  destruct a; reflexivity.
Qed.

Lemma eachEpisode_exact (w : World) (url : string)
      (els : list CheerioElement) :
  forall index acc s,
    exists rs,
      eachEpisode w url index els acc s =
      (Ok (acc ++ rs)%list,
       withEvents (advanced s (List.length rs)) (extractErrors els)) /\
      map content rs = flat_map staticContent els.
Proof.
  induction els as [|el els IH]; intros index acc s.
  - exists []. split; [|reflexivity]. simpl. unfold ret.
    rewrite app_nil_r. f_equal. apply state_eq; simpl; try reflexivity.
    symmetry. apply app_nil_r.
  - rewrite eachEpisode_step, extractAnimeData_exact.
    unfold extractErrors, staticContent. simpl flat_map.
    fold (extractErrors els).
    destruct (readError el) as [e|] eqn:Er.
    + destruct (IH (S index) acc (withEvent s (extractErrorLog e))) as (rs & E & C).
      exists rs. rewrite E. split.
      * f_equal. apply state_eq; simpl; try reflexivity.
        rewrite <- app_assoc. reflexivity.
      * rewrite C.
        assert (itemOf el = None) as ->; [|reflexivity].
        unfold readError, itemOf in *.
        destruct (ce_title el) as [?|?], (ce_imageSrc el) as [[?|]|?],
                 (ce_status el) as [?|?], (ce_time el) as [?|?];
          simpl in *; first [reflexivity | discriminate Er].
    + destruct (itemOf el) as [[[t u] st]|] eqn:Ei.
      * destruct (IH (S index)
                    (acc ++ [mkRecord t u st url (w_clock w (st_tick s))])%list
                    (snd (tick s))) as (rs & E & C).
        exists (mkRecord t u st url (w_clock w (st_tick s)) :: rs).
        rewrite E. split.
        -- rewrite <- app_assoc. f_equal. apply state_eq; simpl; try reflexivity.
           lia.
        -- simpl. rewrite C. reflexivity.
      * destruct (IH (S index) acc s) as (rs & E & C).
        exists rs. rewrite E. split; [reflexivity | rewrite C; reflexivity].
Qed.

Lemma scrapeWithCheerio_exact (w : World) (url : string) (s : State)
      (els : list CheerioElement) :
  w_http w (st_tick s) url = HttpOk els ->
  exists records s',
    scrapeWithCheerio w url s = (Ok records, s') /\
    map content records = flat_map staticContent els /\
    st_trace s' = (st_trace s ++ HttpGet url :: extractErrors els)%list.
Proof.
  intro Hw. unfold scrapeWithCheerio, bind at 1.
  rewrite (axiosGet_ok w url s els Hw).
  destruct (eachEpisode_exact w url els 0 []
              (withEvent (snd (tick s)) (HttpGet url))) as (rs & E & C).
  exists rs. eexists. split; [exact E|]. split; [exact C|].
  simpl. rewrite <- app_assoc. reflexivity.
Qed.

(** X8: when the request is answered, the static fetch does not throw and
    returns, in the order of the listing, one record for each element
    whose reads go through and whose trimmed title and image [src] are
    not empty; the status of the record is the normalised, trimmed status
    text. *)
Theorem scrapeWithCheerio_records (w : World) (url : string) (s : State)
        (els : list CheerioElement) :
  w_http w (st_tick s) url = HttpOk els ->
  exists records s',
    scrapeWithCheerio w url s = (Ok records, s') /\
    map content records = flat_map staticContent els /\
    (List.length records <= List.length els)%nat.
Proof.
  intro Hw.
  destruct (scrapeWithCheerio_exact w url s els Hw) as (rs & s' & E & C & _).
  exists rs, s'. split; [exact E|]. split; [exact C|].
  rewrite <- (length_map content rs), C. clear.
  induction els as [|el els IH]; simpl; [lia|].
  rewrite length_app. unfold staticContent at 1.
  destruct (itemOf el) as [[[t u] st]|]; simpl; lia.
Qed.

Lemma scrapeWithCheerio_records_witness :
  exists records s',
    scrapeWithCheerio worldMixed (pageUrl 1) initialState = (Ok records, s') /\
    map content records =
    [ ("Naruto", "/img/naruto.jpg", "ongoing");
      ("Bleach", "/img/bleach.jpg", "completed") ] /\
    (List.length records <= 5)%nat.
Proof.
  apply (scrapeWithCheerio_records worldMixed (pageUrl 1) initialState
           mixedListing).
  reflexivity.
Defined.

(** X9: when the request is answered, the static fetch adds to the trace
    the request and one "Error extracting anime data:" entry for each
    element with a read that raises, and nothing else: an item dropped
    for an empty title or image URL leaves no entry, and the [catch]
    around [extractAnimeData] in the loop never logs. *)
Theorem scrapeWithCheerio_trace (w : World) (url : string) (s : State)
        (els : list CheerioElement) :
  w_http w (st_tick s) url = HttpOk els ->
  st_trace (snd (scrapeWithCheerio w url s)) =
  (st_trace s ++ HttpGet url :: extractErrors els)%list.
Proof.
  intro Hw.
  destruct (scrapeWithCheerio_exact w url s els Hw) as (rs & s' & E & _ & T).
  rewrite E. exact T.
Qed.

Lemma scrapeWithCheerio_trace_witness :
  st_trace (snd (scrapeWithCheerio worldMixed (pageUrl 1) initialState)) =
  [ HttpGet (pageUrl 1);
    extractErrorLog (Error "Cannot read properties of undefined") ].
Proof.
  apply (scrapeWithCheerio_trace worldMixed (pageUrl 1) initialState
           mixedListing).
  reflexivity.
Defined.

(** X10: when the request fails, the static fetch throws the request's
    error, extracts nothing, and waits 5000 ms before throwing exactly
    when the response status is 429. *)
Theorem scrapeWithCheerio_request_fails (w : World) (url : string) (s : State)
        (st : option Z) :
  w_http w (st_tick s) url = HttpFail st ->
  fst (scrapeWithCheerio w url s) = Throw (AxiosError st) /\
  st_trace (snd (scrapeWithCheerio w url s)) =
  (st_trace s ++ HttpGet url ::
     (if statusIs st 429 then [Sleep 5000] else []))%list.
Proof.
  intro Hw. unfold scrapeWithCheerio, bind at 1, axiosGet, bind, tick, emit.
  cbn [st_tick]. rewrite Hw.
  destruct (statusIs st 429); simpl; split; try reflexivity.
  rewrite <- app_assoc. reflexivity.
Qed.

Lemma scrapeWithCheerio_request_fails_witness :
  fst (scrapeWithCheerio worldRateLimited (pageUrl 1) initialState)
  = Throw (AxiosError (Some 429%Z)) /\
  st_trace (snd (scrapeWithCheerio worldRateLimited (pageUrl 1) initialState))
  = [HttpGet (pageUrl 1); Sleep 5000].
Proof.
  apply (scrapeWithCheerio_request_fails worldRateLimited (pageUrl 1)
           initialState (Some 429%Z)).
  reflexivity.
Defined.

(* ------------------------------------------------------------------ *)
(** ** The rendered fetch, exactly *)

Lemma evaluateEpisodes_exact (eps : list (Result DomEpisode)) :
  forall acc s,
    exists items,
      evaluateEpisodes eps acc s =
      (Ok (acc ++ items)%list, withEvents s (consoleErrors eps)) /\
      map rawContent items = flat_map renderedContent eps.
Proof.
  induction eps as [|ep eps IH]; intros acc s.
  - exists []. split; [|reflexivity]. simpl. unfold ret.
    rewrite app_nil_r. f_equal. apply state_eq; simpl; try reflexivity.
    symmetry. apply app_nil_r.
  - simpl evaluateEpisodes. unfold bind at 1, tryCatch, bind at 1, liftResult.
    destruct ep as [d|e].
    + unfold consoleErrors. simpl flat_map. fold (consoleErrors eps).
      destruct (de_title d) as [t|] eqn:Et; [destruct (de_image d) as [i|] eqn:Ei|].
      * unfold ret at 1.
        destruct (IH (acc ++ [{| ri_title := trimmedOrEmpty t;
                                 ri_imageUrl := attrOrEmpty i;
                                 ri_status := trimmedOrEmpty (flattenOpt (de_status d));
                                 ri_time := trimmedOrEmpty (flattenOpt (de_time d)) |}])%list
                    s) as (items & E & C).
        eexists (_ :: items). rewrite E. split.
        -- rewrite <- app_assoc. reflexivity.
        -- simpl. rewrite ?Et, ?Ei, C. reflexivity.
      * unfold ret at 1. destruct (IH acc s) as (items & E & C).
        exists items. rewrite E. split; [reflexivity|].
        simpl. rewrite ?Et, ?Ei. exact C.
      * unfold ret at 1. destruct (IH acc s) as (items & E & C).
        exists items. rewrite E. split; [reflexivity|].
        simpl. rewrite ?Et. exact C.
    + unfold bind, emit, ret.
      destruct (IH acc (withEvent s (ConsoleError "Error extracting episode data:" e)))
        as (items & E & C).
      exists items. rewrite E. split; [|exact C].
      f_equal. apply state_eq; simpl; try reflexivity.
      rewrite <- app_assoc. reflexivity.
Qed.

Lemma mapItems_exact (w : World) (url : string) (items : list RawItem) :
  forall s,
    exists rs,
      mapItems w url items s = (Ok rs, advanced s (List.length items)) /\
      map content rs = map rawContent items.
Proof.
  induction items as [|it items IH]; intro s.
  - exists []. split; [|reflexivity]. simpl. unfold ret. f_equal.
    apply state_eq; reflexivity.
  - simpl mapItems. unfold bind at 1, newDate, bind at 1, tick, ret at 1.
    unfold bind at 1.
    destruct (IH {| st_browser := st_browser s; st_pages := st_pages s;
                    st_tick := S (st_tick s); st_trace := st_trace s |})
      as (rs & E & C).
    rewrite E. eexists (_ :: rs). split.
    + unfold ret. f_equal. apply state_eq; simpl; try reflexivity. lia.
    + simpl. rewrite C. reflexivity.
Qed.

Lemma renderBody_exact (w : World) (url : string) (r : Rendering)
      (eps : list (Result DomEpisode)) (s : State) :
  firstRejection r = None ->
  r_evaluate r = Ok eps ->
  exists rs n,
    renderBody w url r s = (Ok rs, withEvents (advanced s n) (consoleErrors eps)) /\
    map content rs = flat_map renderedContent eps.
Proof.
  intros Hf He. unfold firstRejection in Hf. unfold renderBody.
  destruct (r_setViewport r); [discriminate Hf|].
  destruct (r_setUserAgent r); [discriminate Hf|].
  destruct (r_goto r); [discriminate Hf|].
  destruct (r_waitForSelector r); [discriminate Hf|].
  rewrite He. unfold step, bind at 1, ret at 1.
  unfold bind at 1, ret at 1. unfold bind at 1, ret at 1.
  unfold bind at 1, ret at 1. unfold bind at 1, liftResult.
  unfold bind at 1.
  destruct (evaluateEpisodes_exact eps [] s) as (items & E & C).
  rewrite E. change ([] ++ items)%list with items.
  destruct (mapItems_exact w url items (withEvents s (consoleErrors eps)))
    as (rs & E2 & C2).
  rewrite E2. exists rs, (List.length items). split.
  - reflexivity.
  - rewrite C2. exact C.
Qed.


(** X11: when the browser is held and every call of the renderer goes
    through, the rendered fetch returns, in the order of the document,
    one record for each episode in which both the title link and the
    image exist, whatever their content; an episode whose queries raise
    is skipped with a console error; the tab is opened first and closed
    last. *)
Theorem scrapeWithPuppeteer_records (w : World) (url : string) (s : State)
        (b : nat) (eps : list (Result DomEpisode)) :
  st_browser s = Some b ->
  r_newPage (w_render w (st_tick s) url) = None ->
  firstRejection (w_render w (st_tick s) url) = None ->
  r_evaluate (w_render w (st_tick s) url) = Ok eps ->
  exists records s',
    scrapeWithPuppeteer w url s = (Ok records, s') /\
    map content records = flat_map renderedContent eps /\
    st_trace s' =
    (st_trace s ++ NewPage (st_tick s) :: consoleErrors eps
       ++ [ClosePage (st_tick s)])%list.
Proof.
  intros Hb Hn Hf He.
  rewrite (scrapeWithPuppeteer_opened w url s b Hb Hn).
  destruct (renderBody_exact w url _ eps (tabOpened s) Hf He)
    as (rs & n & E & C).
  unfold tryFinally. rewrite E. unfold closePage, bind, emit, setPages.
  exists rs. eexists. split; [reflexivity|]. split; [exact C|].
  simpl. rewrite <- !app_assoc. reflexivity.
Qed.

Lemma scrapeWithPuppeteer_records_witness :
  exists records s',
    scrapeWithPuppeteer worldMixed (pageUrl 1) launchedState = (Ok records, s') /\
    map content records =
    [ ("Naruto", "/img/naruto.jpg", "ongoing");
      ("", "", "ongoing");
      ("Bleach", "/img/bleach.jpg", "completed") ] /\
    st_trace s' =
    [ Launch; NewPage 1;
      ConsoleError "Error extracting episode data:"
        (Error "Cannot read properties of undefined");
      ClosePage 1 ].
Proof.
  apply (scrapeWithPuppeteer_records worldMixed (pageUrl 1) launchedState
           0%nat mixedEpisodes); reflexivity.
Defined.



(* ------------------------------------------------------------------ *)
(** ** More on the page loop *)

(** X13: a run never throws, whatever the pages, the configuration, the
    environment and the state of the service. *)
Theorem scrapeAnimePages_never_throws
        (w : World) (config : ScrapingConfig) (pages : list Z) (s : State) :
  exists records s', scrapeAnimePages w config pages s = (Ok records, s').
Proof. exact (scrapeLoop_total w config pages [] s). Qed.

Lemma scrapeLoop_acc (w : World) (config : ScrapingConfig) (pages : list Z) :
  forall acc s records s',
    scrapeLoop w config pages [] s = (Ok records, s') ->
    scrapeLoop w config pages acc s = (Ok (acc ++ records)%list, s').
Proof.
  induction pages as [|p pages IH]; intros acc s records s' E.
  - simpl in *. inversion E. unfold ret. rewrite app_nil_r. reflexivity.
  - rewrite scrapeLoop_cons in *.
    destruct (scrapeAnimePage w config p (withEvent s (pageStartLog p)))
      as [[d|e] s1].
    + change ([] ++ d)%list with d in E.
      destruct (scrapeLoop_total w config pages [] (withEvent s1 (Sleep (delay config))))
        as (r0 & s0 & E0).
      rewrite (IH d _ r0 s0 E0) in E. inversion E. subst.
      rewrite (IH (acc ++ d)%list _ r0 s' E0). rewrite <- app_assoc.
      reflexivity.
    + apply IH. exact E.
Qed.

(** X14: running two batches of pages one after the other is the same as
    running their concatenation: same final state, and the records of the
    first batch followed by those of the second. *)
Theorem scrapeAnimePages_batches
        (w : World) (config : ScrapingConfig) (first second : list Z)
        (s : State) :
  exists r1 s1 r2 s2,
    scrapeAnimePages w config first s = (Ok r1, s1) /\
    scrapeAnimePages w config second s1 = (Ok r2, s2) /\
    scrapeAnimePages w config (first ++ second) s = (Ok (r1 ++ r2)%list, s2).
Proof.
  destruct (scrapeLoop_total w config first [] s) as (r1 & s1 & E1).
  destruct (scrapeLoop_total w config second [] s1) as (r2 & s2 & E2).
  exists r1, s1, r2, s2. split; [exact E1|]. split; [exact E2|].
  unfold scrapeAnimePages.
  rewrite (scrapeLoop_app w config first second [] s r1 s1 E1).
  apply scrapeLoop_acc. exact E2.
Qed.

Lemma scrapeWithPuppeteer_samePages (w : World) (url : string) :
  Steps samePages (scrapeWithPuppeteer w url).
Proof.
  intro s. unfold samePages.
  destruct (st_browser s) as [b|] eqn:Eb.
  - destruct (r_newPage (w_render w (st_tick s) url)) as [e|] eqn:En.
    + rewrite (scrapeWithPuppeteer_refused w url s b e Eb En). reflexivity.
    + rewrite (scrapeWithPuppeteer_opened w url s b Eb En).
      destruct (tryFinally_closePage
                  (renderBody w url (w_render w (st_tick s) url))
                  (st_tick s) (tabOpened s)
                  (renderBody_samePages w url _) (renderBody_quiet w url _))
        as (Hp & _).
      rewrite Hp. apply removeTab_head.
  - rewrite (scrapeWithPuppeteer_uninitialized w url s Eb). reflexivity.
Qed.

Lemma scrapeAnimePage_samePages (w : World) (config : ScrapingConfig) (page : Z) :
  Steps samePages (scrapeAnimePage w config page).
Proof.
  unfold scrapeAnimePage, retryExecute.
  apply (Steps_retryFrom samePages samePages_refl samePages_trans).
  - intros s e _. reflexivity.
  - unfold scrapeAttempt. destruct (usePuppeteer config).
    + apply scrapeWithPuppeteer_samePages.
    + apply (Steps_scrapeWithCheerio samePages samePages_refl samePages_trans).
      * intro s. reflexivity.
      * intros s e _. reflexivity.
Qed.

(** X15: a run leaves the set of open tabs as it found it, on either
    path, whatever fails and however often a page is retried. *)
Theorem scrapeAnimePages_leaves_no_tab
        (w : World) (config : ScrapingConfig) (pages : list Z) (s : State) :
  st_pages (snd (scrapeAnimePages w config pages s)) = st_pages s.
Proof.
  unfold scrapeAnimePages. generalize (@nil ScrapedAnimeData). revert s.
  induction pages as [|p pages IH]; intros s acc; [reflexivity|].
  rewrite scrapeLoop_cons.
  pose proof (scrapeAnimePage_samePages w config p
                (withEvent s (pageStartLog p))) as H.
  destruct (scrapeAnimePage w config p (withEvent s (pageStartLog p)))
    as [[d|e] s1]; rewrite IH; exact H.
Qed.

Lemma retryFrom_refused (w : World) (config : ScrapingConfig) (url : string) :
  usePuppeteer config = true ->
  forall n attempt s,
    st_browser s = None ->
    retryFrom w attempt n (scrapeAttempt w config url) s =
    (Throw notInitialized, withEvents s (retryWaits w attempt n)).
Proof.
  intros Hu. induction n as [|n IH]; intros attempt s Hb; simpl retryFrom;
    unfold tryCatch, scrapeAttempt; rewrite Hu;
    rewrite (scrapeWithPuppeteer_uninitialized w url s Hb).
  - unfold throw. f_equal. apply state_eq; simpl; try reflexivity.
    symmetry. apply app_nil_r.
  - unfold bind, emit.
    pose proof (IH (S attempt) (withEvent s (RetryWait (w_backoff w attempt))) Hb)
      as E.
    unfold scrapeAttempt in E. rewrite Hu in E. rewrite E. f_equal.
    apply state_eq; simpl; try reflexivity.
    rewrite <- app_assoc. reflexivity.
Qed.

Lemma scrapeLoop_refused (w : World) (config : ScrapingConfig) :
  usePuppeteer config = true ->
  forall pages acc s,
    st_browser s = None ->
    scrapeLoop w config pages acc s =
    (Ok acc, withEvents s (flat_map (refusedPage w config) pages)).
Proof.
  intros Hu. induction pages as [|p pages IH]; intros acc s Hb.
  - simpl. unfold ret. f_equal. apply state_eq; simpl; try reflexivity.
    symmetry. apply app_nil_r.
  - rewrite scrapeLoop_cons. unfold scrapeAnimePage, retryExecute.
    rewrite (retryFrom_refused w config (pageUrl p) Hu (retries config) 0
               (withEvent s (pageStartLog p)) Hb).
    rewrite IH by exact Hb. f_equal.
    apply state_eq; simpl; try reflexivity.
    unfold refusedPage. rewrite <- !app_assoc. reflexivity.
Qed.

(** X16: on a service set up for rendered fetches that holds no browser,
    a run over any pages returns no record; for each page, in order, it
    logs the start, lets the retry service go through its waits, and logs
    "Browser not initialized"; it makes no request, opens no tab and
    never sleeps between pages. *)
Theorem scrapeAnimePages_without_browser
        (w : World) (config : ScrapingConfig) (pages : list Z) (s : State) :
  usePuppeteer config = true ->
  st_browser s = None ->
  scrapeAnimePages w config pages s =
  (Ok [], withEvents s (flat_map (refusedPage w config) pages)).
Proof.
  intros Hu Hb. apply scrapeLoop_refused; assumption.
Qed.

Lemma scrapeAnimePages_without_browser_witness :
  scrapeAnimePages worldPlainEpisode renderedConfig [1; 2]%Z initialState =
  (Ok [],
   withEvents initialState
     [ pageStartLog 1; pageErrorLog 1 notInitialized;
       pageStartLog 2; pageErrorLog 2 notInitialized ]).
Proof.
  apply (scrapeAnimePages_without_browser worldPlainEpisode renderedConfig
           [1; 2]%Z initialState); reflexivity.
Defined.

(* ------------------------------------------------------------------ *)
(** ** What holds of every record *)

Lemma trimStart_head (s : string) :
  match Js.trimStart s with
  | EmptyString => True
  | String c _ => Js.isWhiteSpace c = false
  end.
Proof.
  induction s as [|c s IH]; simpl; [exact I|].
  destruct (Js.isWhiteSpace c) eqn:E; [exact IH | exact E].
Qed.

Lemma trimEnd_idempotent (s : string) : Js.trimEnd (Js.trimEnd s) = Js.trimEnd s.
Proof.
  induction s as [|c s IH]; [reflexivity|]. simpl.
  destruct (Js.trimEnd s) as [|d t] eqn:E.
  - destruct (Js.isWhiteSpace c) eqn:Ec; [reflexivity|].
    simpl. rewrite Ec. reflexivity.
  - change (Js.trimEnd (String c (String d t)))
      with (match Js.trimEnd (String d t) with
            | EmptyString => if Js.isWhiteSpace c then EmptyString
                             else String c EmptyString
            | u => String c u
            end).
    rewrite IH. reflexivity.
Qed.

Lemma trimEnd_head (c : ascii) (s : string) :
  Js.isWhiteSpace c = false ->
  exists t, Js.trimEnd (String c s) = String c t.
Proof.
  intro E. simpl. destruct (Js.trimEnd s) as [|d t].
  - rewrite E. exists "". reflexivity.
  - exists (String d t). reflexivity.
Qed.

Lemma trim_idempotent (s : string) : Js.trim (Js.trim s) = Js.trim s.
Proof.
  unfold Js.trim. pose proof (trimStart_head s) as H.
  destruct (Js.trimStart s) as [|c u]; [reflexivity|].
  destruct (trimEnd_head c u H) as (t & Et).
  assert (Js.trimStart (Js.trimEnd (String c u)) = Js.trimEnd (String c u)) as ->.
  { rewrite Et. simpl. rewrite H. reflexivity. }
  apply trimEnd_idempotent.
Qed.

Lemma trimmedOrEmpty_trimmed (text : option string) :
  Js.trim (trimmedOrEmpty text) = trimmedOrEmpty text.
Proof.
  unfold trimmedOrEmpty, Js.orElse. destruct text as [t|]; [|reflexivity].
  destruct (Js.truthy (Js.trim t)); [apply trim_idempotent | reflexivity].
Qed.

Lemma mkRecord_wellFormed (t u st url : string) (now : Z) :
  Js.trim t = t -> wellFormed (mkRecord t u st url now).
Proof.
  intro H. split; [reflexivity|]. split; [exact H|]. apply parseStatus_values.
Qed.

Lemma extractAnimeData_wellFormed (w : World) (el : CheerioElement)
      (url : string) (s s' : State) (r : ScrapedAnimeData) :
  extractAnimeData w el url s = (Ok (Some r), s') -> wellFormed r.
Proof.
  rewrite extractAnimeData_exact.
  destruct (readError el); [discriminate|].
  destruct (itemOf el) as [[[t u] st]|] eqn:Ei; [|discriminate].
  intro E. inversion E. apply mkRecord_wellFormed.
  unfold itemOf in Ei.
  destruct (ce_title el) as [t0|], (ce_imageSrc el) as [[u0|]|],
           (ce_status el) as [st0|], (ce_time el) as [tm0|];
    try discriminate Ei.
  destruct (_ && _); [|discriminate Ei].
  inversion Ei. apply trim_idempotent.
Qed.

Lemma eachEpisode_wellFormed (w : World) (url : string)
      (els : list CheerioElement) :
  forall index acc,
    Forall wellFormed acc ->
    Produces (Forall wellFormed) (eachEpisode w url index els acc).
Proof.
  induction els as [|el els IH]; intros index acc Hacc.
  - apply Produces_ret. exact Hacc.
  - intros s a s' E. rewrite eachEpisode_step in E.
    destruct (extractAnimeData w el url s) as [[[r|]|e] s1] eqn:Ex;
      [| |discriminate E].
    + refine (IH _ _ _ _ _ _ E). apply Forall_app. split; [exact Hacc|].
      constructor; [|constructor].
      exact (extractAnimeData_wellFormed _ _ _ _ _ _ Ex).
    + exact (IH _ _ Hacc _ _ _ E).
Qed.

Lemma evaluateEpisodes_trimmed (eps : list (Result DomEpisode)) :
  forall acc,
    Forall (fun it => Js.trim (ri_title it) = ri_title it) acc ->
    Produces (Forall (fun it => Js.trim (ri_title it) = ri_title it))
      (evaluateEpisodes eps acc).
Proof.
  induction eps as [|ep eps IH]; intros acc Hacc; simpl.
  - apply Produces_ret. exact Hacc.
  - eapply Produces_bind; [|intros a Ha; apply IH; exact Ha].
    apply Produces_tryCatch.
    + eapply Produces_bind; [apply Produces_any|]. intros d _.
      destruct (de_title d) as [t|]; [destruct (de_image d) as [i|]|];
        apply Produces_ret; try exact Hacc.
      apply Forall_app. split; [exact Hacc|].
      constructor; [|constructor]. simpl. apply trimmedOrEmpty_trimmed.
    + intro e. eapply Produces_bind; [apply Produces_any|].
      intros _ _. apply Produces_ret. exact Hacc.
Qed.

Lemma mapItems_wellFormed (w : World) (url : string) (items : list RawItem) :
  Forall (fun it => Js.trim (ri_title it) = ri_title it) items ->
  Produces (Forall wellFormed) (mapItems w url items).
Proof.
  induction items as [|it items IH]; intro H; simpl.
  - apply Produces_ret. constructor.
  - inversion H as [|x l Hx Hl]. subst.
    eapply Produces_bind; [apply Produces_any|]. intros now _.
    eapply Produces_bind; [exact (IH Hl)|]. intros rs Hrs.
    apply Produces_ret. constructor; [|exact Hrs].
    apply mkRecord_wellFormed. exact Hx.
Qed.

Lemma scrapeAttempt_wellFormed (w : World) (config : ScrapingConfig)
      (url : string) :
  Produces (Forall wellFormed) (scrapeAttempt w config url).
Proof.
  unfold scrapeAttempt. destruct (usePuppeteer config).
  - eapply Produces_bind; [apply Produces_any|]. intros [b|] _;
      [|apply Produces_throw].
    eapply Produces_bind; [apply Produces_any|]. intros t _.
    eapply Produces_bind; [apply Produces_any|]. intros page _.
    apply Produces_tryFinally. unfold renderBody.
    do 5 (eapply Produces_bind; [apply Produces_any|]; intros ? _).
    eapply Produces_bind; [apply evaluateEpisodes_trimmed; constructor|].
    intros items Hitems. apply mapItems_wellFormed. exact Hitems.
  - eapply Produces_bind; [apply Produces_any|]. intros els _.
    apply eachEpisode_wellFormed. constructor.
Qed.

Lemma scrapeLoop_wellFormed (w : World) (config : ScrapingConfig)
      (pages : list Z) :
  forall acc,
    Forall wellFormed acc ->
    Produces (Forall wellFormed) (scrapeLoop w config pages acc).
Proof.
  induction pages as [|p pages IH]; intros acc Hacc.
  - apply Produces_ret. exact Hacc.
  - intros s a s' E. rewrite scrapeLoop_cons in E.
    destruct (scrapeAnimePage w config p (withEvent s (pageStartLog p)))
      as [[d|e] s1] eqn:Ep.
    + refine (IH _ _ _ _ _ E). apply Forall_app. split; [exact Hacc|].
      unfold scrapeAnimePage, retryExecute in Ep.
      exact (retryFrom_produces w _ _ (scrapeAttempt_wellFormed w config _)
               _ _ _ _ _ Ep).
    + exact (IH _ Hacc _ _ _ E).
Qed.

(** X17: every record a run returns, on either path, has as slug the slug
    of its title, a title without white space at its ends, and a status
    among "ongoing", "completed" and "upcoming". *)
Theorem scrapeAnimePages_records_wellFormed
        (w : World) (config : ScrapingConfig) (pages : list Z)
        (s s' : State) (records : list ScrapedAnimeData) :
  scrapeAnimePages w config pages s = (Ok records, s') ->
  Forall wellFormed records.
Proof.
  intro E. exact (scrapeLoop_wellFormed w config pages [] (Forall_nil _) _ _ _ E).
Qed.

Lemma scrapeAnimePages_records_wellFormed_witness :
  exists records s',
    scrapeAnimePages worldMixed defaultConfig [1; 2]%Z initialState
    = (Ok records, s') /\
    List.length records = 4%nat /\
    Forall wellFormed records.
Proof.
  eexists. eexists. split; [vm_compute; reflexivity|]. split; [reflexivity|].
  eapply (scrapeAnimePages_records_wellFormed worldMixed defaultConfig
            [1; 2]%Z initialState).
  vm_compute. reflexivity.
Defined.

(* ------------------------------------------------------------------ *)
(** ** The life of the browser *)

(** X18: calling [initializeBrowser] twice in a row is the same as calling
    it once: the second call launches nothing. *)
Theorem initializeBrowser_twice (w : World) (config : ScrapingConfig) (s : State) :
  (initializeBrowser w config ;; initializeBrowser w config) s =
  initializeBrowser w config s.
Proof.
  destruct s as [br pg tk tr].
  unfold initializeBrowser, bind, getBrowser, tick, emit, setBrowser,
    withEvent, ret, throw.
  destruct (usePuppeteer config) eqn:Hu; [|reflexivity].
  destruct br as [b|]; [reflexivity|]. simpl.
  destruct (w_launch w tk); simpl; rewrite ?Hu; reflexivity.
Qed.

(** X19: after a [cleanup] whose [browser.close()] goes through, the
    service holds no browser: [getStats] reports it inactive, a rendered
    fetch fails with "Browser not initialized" and changes nothing, and
    another [cleanup] does nothing. *)
Theorem cleanup_drops_browser
        (w : World) (config : ScrapingConfig) (url : string) (s : State) :
  let s1 := snd (cleanup None s) in
  fst (cleanup None s) = Ok tt /\
  fst (getStats config s1) = Ok (config, false) /\
  scrapeWithPuppeteer w url s1 = (Throw notInitialized, s1) /\
  (forall closing, cleanup closing s1 = (Ok tt, s1)).
Proof.
  unfold cleanup, getStats, bind, getBrowser, step.
  destruct (st_browser s) as [b|] eqn:Hb; cbn [setBrowser ret fst snd].
  - unfold setBrowser. cbn [st_browser].
    split; [reflexivity|]. split; [reflexivity|]. split; [|reflexivity].
    apply scrapeWithPuppeteer_uninitialized. reflexivity.
  - rewrite Hb.
    split; [reflexivity|]. split; [reflexivity|]. split; [|reflexivity].
    apply scrapeWithPuppeteer_uninitialized. exact Hb.
Qed.

(** When [browser.close()] rejects, [cleanup] throws that error and the
    service keeps its browser: [getStats] still reports it active. *)
Lemma cleanup_close_rejects
        (config : ScrapingConfig) (s : State) (b : nat) (e : JsError) :
  st_browser s = Some b ->
  cleanup (Some e) s = (Throw e, s) /\
  fst (getStats config (snd (cleanup (Some e) s))) = Ok (config, true).
Proof.
  intro Hb. unfold cleanup, getStats, bind, getBrowser, step, throw.
  rewrite Hb. cbn [snd]. rewrite Hb. split; reflexivity.
Qed.

Lemma cleanup_close_rejects_witness :
  cleanup (Some (Error "Protocol error")) launchedState
  = (Throw (Error "Protocol error"), launchedState) /\
  fst (getStats renderedConfig
         (snd (cleanup (Some (Error "Protocol error")) launchedState)))
  = Ok (renderedConfig, true).
Proof.
  apply (cleanup_close_rejects renderedConfig launchedState 0%nat
           (Error "Protocol error")).
  reflexivity.
Defined.

(* ------------------------------------------------------------------ *)
(** ** The proxy of a request *)

Lemma digit_unit (c : ascii) :
  Js.isDigit c = true ->
  Js.isWhiteSpace c = false /\ Ascii.eqb c "-" = false /\
  Ascii.eqb c "+" = false /\ Ascii.eqb c ":" = false /\
  Ascii.eqb c "x" = false /\ Ascii.eqb c "X" = false.
Proof.
  destruct c as [[] [] [] [] [] [] [] []]; vm_compute; intro H;
    first [discriminate H | repeat split].
Qed.

Lemma string_of_uint_digits (u : Decimal.uint) :
  allUnits Js.isDigit (NilEmpty.string_of_uint u) = true.
Proof. induction u; simpl; auto. Qed.

Lemma digits_noColon (d : string) :
  allUnits Js.isDigit d = true -> noColon d = true.
Proof.
  unfold noColon. induction d as [|c d IH]; simpl; [reflexivity|].
  intro H. apply andb_prop in H. destruct H as [Hc Hd].
  destruct (digit_unit c Hc) as (_ & _ & _ & E & _).
  rewrite E, (IH Hd). reflexivity.
Qed.

Lemma splitColon_single (s : string) : noColon s = true -> splitColon s = [s].
Proof.
  unfold noColon. induction s as [|c s IH]; simpl; [reflexivity|].
  intro H. apply andb_prop in H. destruct H as [Hc Hs].
  apply negb_true_iff in Hc. rewrite Hc, (IH Hs). reflexivity.
Qed.

Lemma splitColon_first (h t : string) :
  noColon h = true ->
  splitColon (h ++ String ":" t) = h :: splitColon t.
Proof.
  unfold noColon. induction h as [|c h IH]; simpl; [reflexivity|].
  intro H. apply andb_prop in H. destruct H as [Hc Hh].
  apply negb_true_iff in Hc. rewrite Hc, (IH Hh). reflexivity.
Qed.

Lemma splitColon_head (c : ascii) (s : string) :
  Ascii.eqb c ":" = false ->
  exists piece rest, splitColon (String c s) = String c piece :: rest.
Proof.
  intro H. simpl. rewrite H.
  destruct (splitColon s) as [|piece rest]; eexists; eexists; reflexivity.
Qed.

Lemma digitsValue_cons (c : ascii) (k : Z) (acc : option Z) (s : string) :
  decimalDigit c = Some k ->
  digitsValue decimalDigit 10 acc (String c s) =
  digitsValue decimalDigit 10
    (Some (10 * match acc with Some a => a | None => 0 end + k)%Z) s.
Proof. intro H. simpl. rewrite H. reflexivity. Qed.

Lemma digitsValue_acc (u : Decimal.uint) :
  forall a : positive,
    digitsValue decimalDigit 10 (Some (Zpos a)) (NilEmpty.string_of_uint u)
    = Some (Zpos (Pos.of_uint_acc u a)).
Proof.
  induction u; intro a.
  - reflexivity.
  - change (NilEmpty.string_of_uint (D0 u))
      with (String "0" (NilEmpty.string_of_uint u)).
    rewrite (digitsValue_cons "0" 0 _ _ eq_refl).
    cbn [Pos.of_uint_acc]. rewrite <- IHu. do 2 f_equal; lia.
  - change (NilEmpty.string_of_uint (D1 u))
      with (String "1" (NilEmpty.string_of_uint u)).
    rewrite (digitsValue_cons "1" 1 _ _ eq_refl).
    cbn [Pos.of_uint_acc]. rewrite <- IHu. do 2 f_equal; lia.
  - change (NilEmpty.string_of_uint (D2 u))
      with (String "2" (NilEmpty.string_of_uint u)).
    rewrite (digitsValue_cons "2" 2 _ _ eq_refl).
    cbn [Pos.of_uint_acc]. rewrite <- IHu. do 2 f_equal; lia.
  - change (NilEmpty.string_of_uint (D3 u))
      with (String "3" (NilEmpty.string_of_uint u)).
    rewrite (digitsValue_cons "3" 3 _ _ eq_refl).
    cbn [Pos.of_uint_acc]. rewrite <- IHu. do 2 f_equal; lia.
  - change (NilEmpty.string_of_uint (D4 u))
      with (String "4" (NilEmpty.string_of_uint u)).
    rewrite (digitsValue_cons "4" 4 _ _ eq_refl).
    cbn [Pos.of_uint_acc]. rewrite <- IHu. do 2 f_equal; lia.
  - change (NilEmpty.string_of_uint (D5 u))
      with (String "5" (NilEmpty.string_of_uint u)).
    rewrite (digitsValue_cons "5" 5 _ _ eq_refl).
    cbn [Pos.of_uint_acc]. rewrite <- IHu. do 2 f_equal; lia.
  - change (NilEmpty.string_of_uint (D6 u))
      with (String "6" (NilEmpty.string_of_uint u)).
    rewrite (digitsValue_cons "6" 6 _ _ eq_refl).
    cbn [Pos.of_uint_acc]. rewrite <- IHu. do 2 f_equal; lia.
  - change (NilEmpty.string_of_uint (D7 u))
      with (String "7" (NilEmpty.string_of_uint u)).
    rewrite (digitsValue_cons "7" 7 _ _ eq_refl).
    cbn [Pos.of_uint_acc]. rewrite <- IHu. do 2 f_equal; lia.
  - change (NilEmpty.string_of_uint (D8 u))
      with (String "8" (NilEmpty.string_of_uint u)).
    rewrite (digitsValue_cons "8" 8 _ _ eq_refl).
    cbn [Pos.of_uint_acc]. rewrite <- IHu. do 2 f_equal; lia.
  - change (NilEmpty.string_of_uint (D9 u))
      with (String "9" (NilEmpty.string_of_uint u)).
    rewrite (digitsValue_cons "9" 9 _ _ eq_refl).
    cbn [Pos.of_uint_acc]. rewrite <- IHu. do 2 f_equal; lia.
Qed.

Lemma digitsValue_start (u : Decimal.uint) :
  u <> Decimal.Nil ->
  forall acc,
    acc = None \/ acc = Some 0%Z ->
    digitsValue decimalDigit 10 acc (NilEmpty.string_of_uint u)
    = Some (Z.of_N (Pos.of_uint u)).
Proof.
  induction u; intros Hn acc Hacc.
  - contradiction Hn. reflexivity.
  - change (NilEmpty.string_of_uint (D0 u))
      with (String "0" (NilEmpty.string_of_uint u)).
    rewrite (digitsValue_cons "0" 0 _ _ eq_refl).
    replace (Some (10 * match acc with Some a => a | None => 0 end + 0)%Z)
      with (Some 0%Z) by (destruct Hacc as [-> | ->]; reflexivity).
    cbn [Pos.of_uint].
    destruct u; try (apply IHu; [discriminate | right; reflexivity]).
    reflexivity.
  - change (NilEmpty.string_of_uint (D1 u))
      with (String "1" (NilEmpty.string_of_uint u)).
    rewrite (digitsValue_cons "1" 1 _ _ eq_refl).
    cbn [Pos.of_uint Z.of_N]. rewrite <- digitsValue_acc.
    do 2 f_equal; destruct Hacc as [-> | ->]; reflexivity.
  - change (NilEmpty.string_of_uint (D2 u))
      with (String "2" (NilEmpty.string_of_uint u)).
    rewrite (digitsValue_cons "2" 2 _ _ eq_refl).
    cbn [Pos.of_uint Z.of_N]. rewrite <- digitsValue_acc.
    do 2 f_equal; destruct Hacc as [-> | ->]; reflexivity.
  - change (NilEmpty.string_of_uint (D3 u))
      with (String "3" (NilEmpty.string_of_uint u)).
    rewrite (digitsValue_cons "3" 3 _ _ eq_refl).
    cbn [Pos.of_uint Z.of_N]. rewrite <- digitsValue_acc.
    do 2 f_equal; destruct Hacc as [-> | ->]; reflexivity.
  - change (NilEmpty.string_of_uint (D4 u))
      with (String "4" (NilEmpty.string_of_uint u)).
    rewrite (digitsValue_cons "4" 4 _ _ eq_refl).
    cbn [Pos.of_uint Z.of_N]. rewrite <- digitsValue_acc.
    do 2 f_equal; destruct Hacc as [-> | ->]; reflexivity.
  - change (NilEmpty.string_of_uint (D5 u))
      with (String "5" (NilEmpty.string_of_uint u)).
    rewrite (digitsValue_cons "5" 5 _ _ eq_refl).
    cbn [Pos.of_uint Z.of_N]. rewrite <- digitsValue_acc.
    do 2 f_equal; destruct Hacc as [-> | ->]; reflexivity.
  - change (NilEmpty.string_of_uint (D6 u))
      with (String "6" (NilEmpty.string_of_uint u)).
    rewrite (digitsValue_cons "6" 6 _ _ eq_refl).
    cbn [Pos.of_uint Z.of_N]. rewrite <- digitsValue_acc.
    do 2 f_equal; destruct Hacc as [-> | ->]; reflexivity.
  - change (NilEmpty.string_of_uint (D7 u))
      with (String "7" (NilEmpty.string_of_uint u)).
    rewrite (digitsValue_cons "7" 7 _ _ eq_refl).
    cbn [Pos.of_uint Z.of_N]. rewrite <- digitsValue_acc.
    do 2 f_equal; destruct Hacc as [-> | ->]; reflexivity.
  - change (NilEmpty.string_of_uint (D8 u))
      with (String "8" (NilEmpty.string_of_uint u)).
    rewrite (digitsValue_cons "8" 8 _ _ eq_refl).
    cbn [Pos.of_uint Z.of_N]. rewrite <- digitsValue_acc.
    do 2 f_equal; destruct Hacc as [-> | ->]; reflexivity.
  - change (NilEmpty.string_of_uint (D9 u))
      with (String "9" (NilEmpty.string_of_uint u)).
    rewrite (digitsValue_cons "9" 9 _ _ eq_refl).
    cbn [Pos.of_uint Z.of_N]. rewrite <- digitsValue_acc.
    do 2 f_equal; destruct Hacc as [-> | ->]; reflexivity.
Qed.

Lemma parseIntString_digits (d : string) :
  allUnits Js.isDigit d = true ->
  parseIntString d = digitsValue decimalDigit 10 None d.
Proof.
  intro H. unfold parseIntString.
  destruct d as [|c d]; [reflexivity|]. simpl in H.
  apply andb_prop in H. destruct H as [Hc Hd].
  destruct (digit_unit c Hc) as (Hw & Hm & Hp & _ & _ & _).
  simpl Js.trimStart. rewrite Hw. unfold stripSign. rewrite Hm, Hp.
  assert (hexPrefixed (String c d) = None) as ->.
  { destruct d as [|x d]; [reflexivity|]. simpl in Hd.
    apply andb_prop in Hd. destruct Hd as [Hx _].
    destruct (digit_unit x Hx) as (_ & _ & _ & _ & E1 & E2).
    unfold hexPrefixed. rewrite E1, E2, andb_false_r. reflexivity. }
  destruct (digitsValue decimalDigit 10 None (String c d)); reflexivity.
Qed.

Lemma numberToString_pos (p : positive) :
  Js.numberToString (Zpos p) = NilEmpty.string_of_uint (Pos.to_uint p).
Proof.
  unfold Js.numberToString. simpl Z.to_int.
  unfold NilZero.string_of_int, NilZero.string_of_uint.
  pose proof (DecimalPos.Unsigned.to_uint_nonnil p) as Hnil.
  destruct (Pos.to_uint p); [contradiction Hnil|..]; reflexivity.
Qed.

Lemma numberToString_digits (n : Z) :
  (0 <= n)%Z -> allUnits Js.isDigit (Js.numberToString n) = true.
Proof.
  intro Hn. destruct n as [|p|p]; [reflexivity| |lia].
  rewrite numberToString_pos. apply string_of_uint_digits.
Qed.

Lemma parseInt_numberToString (n : Z) :
  (0 <= n)%Z -> parseIntString (Js.numberToString n) = Some n.
Proof.
  intro Hn. rewrite parseIntString_digits by (apply numberToString_digits; exact Hn).
  destruct n as [|p|p]; [reflexivity| |lia].
  rewrite numberToString_pos.
  rewrite (digitsValue_start (Pos.to_uint p)
             (DecimalPos.Unsigned.to_uint_nonnil p) None (or_introl eq_refl)).
  rewrite DecimalPos.Unsigned.of_to. reflexivity.
Qed.

(** X20: a proxy written as a host without colon, a colon and the
    decimal digits of a port below 2^53 is put on the request with that
    host and that port. *)
Theorem requestProxy_host_port (config : ScrapingConfig) (h : string) (n : Z) :
  noColon h = true ->
  (0 <= n < 2 ^ 53)%Z ->
  proxy config = Some (h ++ ":" ++ Js.numberToString n) ->
  requestProxy config = Some {| host := h; port := Some n |}.
Proof.
  intros Hh [Hn _] Hp. unfold requestProxy. rewrite Hp.
  assert (Js.truthy (h ++ ":" ++ Js.numberToString n) = true) as ->
      by (destruct h; reflexivity).
  change (h ++ ":" ++ Js.numberToString n)
    with (h ++ String ":" (Js.numberToString n)).
  rewrite (splitColon_first h _ Hh).
  pose proof (numberToString_digits n Hn) as Hd.
  rewrite (splitColon_single _ (digits_noColon _ Hd)).
  simpl hd. simpl nth_error. unfold parseInt.
  rewrite (parseInt_numberToString n Hn). reflexivity.
Qed.

Lemma requestProxy_host_port_witness :
  requestProxy (withProxy "10.0.0.1:8080")
  = Some {| host := "10.0.0.1"; port := Some 8080%Z |}.
Proof.
  apply (requestProxy_host_port (withProxy "10.0.0.1:8080") "10.0.0.1" 8080);
    [reflexivity | lia | reflexivity].
Defined.

(** X21: a proxy written as a URL, a scheme followed by "://", is cut at
    its first colon: the request gets the scheme as host and [NaN] as
    port, whatever follows. *)
Theorem requestProxy_url (config : ScrapingConfig) (scheme rest : string) :
  noColon scheme = true ->
  proxy config = Some (scheme ++ "://" ++ rest) ->
  requestProxy config = Some {| host := scheme; port := None |}.
Proof.
  intros Hs Hp. unfold requestProxy. rewrite Hp.
  assert (Js.truthy (scheme ++ "://" ++ rest) = true) as ->
      by (destruct scheme; reflexivity).
  change (scheme ++ "://" ++ rest) with (scheme ++ String ":" ("//" ++ rest)).
  rewrite (splitColon_first scheme _ Hs).
  destruct (splitColon_head "/" (String "/" rest) eq_refl)
    as (piece & more & E).
  change ("//" ++ rest) with (String "/" (String "/" rest)).
  rewrite E. cbn [hd nth_error]. unfold parseInt, parseIntString.
  destruct piece; reflexivity.
Qed.

Lemma requestProxy_url_witness :
  requestProxy (withProxy "http://10.0.0.1:8080")
  = Some {| host := "http"; port := None |}.
Proof.
  apply (requestProxy_url (withProxy "http://10.0.0.1:8080")
           "http" "10.0.0.1:8080"); reflexivity.
Defined.

(** X22: a proxy without colon is taken as a host with [NaN] as port, and
    the empty proxy is no proxy. *)
Theorem requestProxy_without_port (config : ScrapingConfig) (p : string) :
  noColon p = true ->
  proxy config = Some p ->
  requestProxy config =
  if Js.truthy p then Some {| host := p; port := None |} else None.
Proof.
  intros Hn Hp. unfold requestProxy. rewrite Hp.
  destruct (Js.truthy p); [|reflexivity].
  rewrite (splitColon_single p Hn). reflexivity.
Qed.

Lemma requestProxy_without_port_witness :
  requestProxy (withProxy "localhost")
  = Some {| host := "localhost"; port := None |}.
Proof.
  apply (requestProxy_without_port (withProxy "localhost") "localhost");
    reflexivity.
Defined.

(* ------------------------------------------------------------------ *)
(** ** The fixed fields of a record and the page it was fetched from *)

(** C9: every record has the empty description, no genres, no episodes,
    the source name "animeindo" and as original URL the URL that was
    fetched: this holds of the records of a static fetch of [url], of a
    rendered fetch of [url], and of a page fetch with its retries, for
    the URL of that page; and the records which a run adds for a page
    are those of that page's fetch, so that they carry the URL of that
    very page. *)
Theorem fetched_records_fixed_fields (w : World) (config : ScrapingConfig) :
  (forall url s records s',
      scrapeWithCheerio w url s = (Ok records, s') ->
      Forall (fixedFields url) records) /\
  (forall url s records s',
      scrapeWithPuppeteer w url s = (Ok records, s') ->
      Forall (fixedFields url) records) /\
  (forall page s records s',
      scrapeAnimePage w config page s = (Ok records, s') ->
      Forall (fixedFields (pageUrl page)) records) /\
  (forall before page after s results s1 pageData s2,
      scrapeAnimePages w config before s = (Ok results, s1) ->
      scrapeAnimePage w config page (withEvent s1 (pageStartLog page))
      = (Ok pageData, s2) ->
      Forall (fixedFields (pageUrl page)) pageData /\
      exists rest s3,
        scrapeAnimePages w config (before ++ page :: after) s =
        (Ok (results ++ pageData ++ rest)%list, s3) /\
        scrapeAnimePages w config after (withEvent s2 (Sleep (delay config)))
        = (Ok rest, s3)) /\
  (forall before page after s results s1 e s2,
      scrapeAnimePages w config before s = (Ok results, s1) ->
      scrapeAnimePage w config page (withEvent s1 (pageStartLog page))
      = (Throw e, s2) ->
      exists rest s3,
        scrapeAnimePages w config (before ++ page :: after) s =
        (Ok (results ++ rest)%list, s3) /\
        scrapeAnimePages w config after (withEvent s2 (pageErrorLog page e))
        = (Ok rest, s3)).
Proof.
  split; [|split; [|split; [|split]]].
  - intros url s records s' E.
    eapply Forall_impl; [|exact (scrapeWithCheerio_produces w url _ _ _ E)].
    intros r [H _]. exact H.
  - intros url s records s' E.
    exact (scrapeWithPuppeteer_produces w url _ _ _ E).
  - intros page s records s' E.
    exact (scrapeAnimePage_produces w config page _ _ _ E).
  - intros before page after s results s1 pageData s2 E Ep.
    split; [exact (scrapeAnimePage_produces w config page _ _ _ Ep)|].
    destruct (scrapeLoop_total w config after []
                (withEvent s2 (Sleep (delay config)))) as (rest & s3 & Er).
    exists rest, s3. split; [|exact Er]. unfold scrapeAnimePages.
    rewrite (scrapeLoop_app w config before (page :: after) [] s results s1 E).
    rewrite scrapeLoop_cons, Ep.
    rewrite (scrapeLoop_acc w config after _ _ rest s3 Er).
    rewrite <- app_assoc. reflexivity.
  - intros before page after s results s1 e s2 E Ep.
    destruct (scrapeLoop_total w config after []
                (withEvent s2 (pageErrorLog page e))) as (rest & s3 & Er).
    exists rest, s3. split; [|exact Er]. unfold scrapeAnimePages.
    rewrite (scrapeLoop_app w config before (page :: after) [] s results s1 E).
    rewrite scrapeLoop_cons, Ep.
    exact (scrapeLoop_acc w config after _ _ rest s3 Er).
Qed.

Lemma fetched_records_fixed_fields_witness :
  (exists records s',
      scrapeWithCheerio worldPage2Down (pageUrl 3) initialState
      = (Ok records, s') /\
      List.length records = 2%nat /\
      Forall (fixedFields (pageUrl 3)) records) /\
  (exists records s',
      scrapeWithPuppeteer worldPlainEpisode (pageUrl 3) launchedState
      = (Ok records, s') /\
      List.length records = 1%nat /\
      Forall (fixedFields (pageUrl 3)) records) /\
  (exists records s',
      scrapeAnimePage worldPage2Down defaultConfig 3 initialState
      = (Ok records, s') /\
      List.length records = 2%nat /\
      Forall (fixedFields (pageUrl 3)) records) /\
  (exists results s1 pageData s2,
      scrapeAnimePages worldPage2Down defaultConfig [1; 2]%Z initialState
      = (Ok results, s1) /\
      scrapeAnimePage worldPage2Down defaultConfig 3
        (withEvent s1 (pageStartLog 3)) = (Ok pageData, s2) /\
      List.length pageData = 2%nat /\
      Forall (fixedFields (pageUrl 3)) pageData /\
      exists rest s3,
        scrapeAnimePages worldPage2Down defaultConfig ([1%Z; 2%Z] ++ 3%Z :: [])%list
          initialState = (Ok (results ++ pageData ++ rest)%list, s3) /\
        scrapeAnimePages worldPage2Down defaultConfig []
          (withEvent s2 (Sleep (delay defaultConfig))) = (Ok rest, s3)) /\
  (exists results s1 e s2,
      scrapeAnimePages worldPage2Down defaultConfig [1]%Z initialState
      = (Ok results, s1) /\
      scrapeAnimePage worldPage2Down defaultConfig 2
        (withEvent s1 (pageStartLog 2)) = (Throw e, s2) /\
      exists rest s3,
        scrapeAnimePages worldPage2Down defaultConfig ([1%Z] ++ 2%Z :: [3%Z])%list
          initialState = (Ok (results ++ rest)%list, s3) /\
        scrapeAnimePages worldPage2Down defaultConfig [3]%Z
          (withEvent s2 (pageErrorLog 2 e)) = (Ok rest, s3)).
Proof.
  destruct (fetched_records_fixed_fields worldPage2Down defaultConfig)
    as (Hstatic & _ & Hpage & Hrun & Hfail).
  destruct (fetched_records_fixed_fields worldPlainEpisode renderedConfig)
    as (_ & Hrendered & _).
  split; [|split; [|split; [|split]]].
  - eexists. eexists. split; [vm_compute; reflexivity|].
    split; [reflexivity|].
    eapply (Hstatic (pageUrl 3) initialState). vm_compute. reflexivity.
  - eexists. eexists. split; [vm_compute; reflexivity|].
    split; [reflexivity|].
    eapply (Hrendered (pageUrl 3) launchedState). vm_compute. reflexivity.
  - eexists. eexists. split; [vm_compute; reflexivity|].
    split; [reflexivity|].
    eapply (Hpage 3%Z initialState). vm_compute. reflexivity.
  - eexists. eexists. eexists. eexists.
    split; [vm_compute; reflexivity|]. split; [vm_compute; reflexivity|].
    split; [reflexivity|].
    eapply (Hrun [1; 2]%Z 3%Z [] initialState); vm_compute; reflexivity.
  - eexists. eexists. eexists. eexists.
    split; [vm_compute; reflexivity|]. split; [vm_compute; reflexivity|].
    eapply (Hfail [1]%Z 2%Z [3]%Z initialState); vm_compute; reflexivity.
Defined.
